(** * Transfer learning notebook of skorch: a model and its checked properties

    The development follows [notebooks/Transfer_Learning.ipynb].  Its first
    part embeds the one function the notebook defines itself,
    [download_and_extract_data], over an interface of the operating-system
    and library calls it makes.  Its second part embeds the configuration
    cells (transform pipelines, callbacks, [NeuralNetClassifier] arguments)
    and a model of the training loop those cells configure. *)

From Stdlib Require Import QArith Qpower ZArith String Ascii List Lia.
From stdpp Require Import gmap strings list.

Open Scope string_scope.

(** ** Part 1: dataset acquisition *)

Module Acquire.

(** *** Paths *)

(** [str.startswith(prefix)] *)
Definition startswith (prefix s : string) : bool := String.prefix prefix s.

(** the last character of a string, if any *)
Fixpoint last_char (s : string) : option ascii :=
  match s with
  | EmptyString => None
  | String c EmptyString => Some c
  | String _ rest => last_char rest
  end.

(** [str.endswith('/')] *)
Definition endswith_sep (s : string) : bool :=
  match last_char s with
  | Some c => if Ascii.eqb c "/"%char then true else false
  | None => false
  end.

(** [os.path.join(a, b)] of posixpath, for two arguments:
    an absolute [b] replaces [a]; an empty [a] or one that already ends
    with the separator takes [b] as it is; otherwise a separator is put
    in between. *)
Definition os_path_join (a b : string) : string :=
  if startswith "/" b then b
  else if String.eqb a "" || endswith_sep a then a +:+ b
  else a +:+ "/" +:+ b.

(** *** Exceptions, events and the environment *)

Inductive exn : Type :=
  | URLError (reason : string)      (* urllib: request failed or timed out *)
  | OSError (reason : string)       (* open/write/makedirs failed *)
  | BadZipFile (reason : string).   (* zipfile: not a readable archive *)

(** What one call does to the world outside the process, in call order. *)
Inductive event : Type :=
  | Print (line : string)
  | UrlOpen (url : string) (timeout : Z)
  | WriteFile (path : string)
  | ExtractAll (archive dest : string).

(** The file system as the function sees it: the three calls it makes.
    A call that raises may still have changed the disk (a truncated file,
    a partly extracted archive), so every call returns the new file
    system together with its outcome. *)
Class FileSystem (FS Bytes : Type) : Type := {
  (* os.path.exists(path) *)
  fs_exists : FS -> string -> bool;
  (* with open(path, 'wb') as f: f.write(data) *)
  fs_write : string -> Bytes -> FS -> FS * option exn;
  (* with ZipFile(archive, 'r') as z: z.extractall(dest) *)
  fs_extractall : string -> string -> FS -> FS * option exn
}.

(** The answer of the network to [request.urlopen(url, timeout=t).read()]. *)
Definition network (Bytes : Type) : Type := string -> Z -> exn + Bytes.

Section Monad.
Context {FS : Type}.

Record world : Type := World { w_fs : FS; w_trace : list event }.

(** State (file system and trace) and exceptions. *)
Definition io (A : Type) : Type := world -> world * (exn + A).

Definition ret {A} (a : A) : io A := fun w => (w, inr a).

Definition raise {A} (e : exn) : io A := fun w => (w, inl e).

Definition bind {A B} (m : io A) (k : A -> io B) : io B :=
  fun w =>
    match m w with
    | (w', inr a) => k a w'
    | (w', inl e) => (w', inl e)
    end.

Definition emit (e : event) : io unit :=
  fun w => (World (w_fs w) (w_trace w ++ [e]), inr tt).

(** [if c: body] with no else branch *)
Definition when (c : bool) (body : io unit) : io unit :=
  if c then body else ret tt.
End Monad.

Arguments world : clear implicits.
Arguments io : clear implicits.

Notation "x <- m ;; k" := (bind m (fun x => k))
  (at level 100, m at next level, right associativity).
Notation "m ;;; k" := (bind m (fun _ => k))
  (at level 100, right associativity).

Section Acquisition.
Context {FS Bytes : Type} `{FileSystem FS Bytes}.
Variable net : network Bytes.

Definition path_exists (path : string) : io FS bool :=
  fun w => (w, inr (fs_exists (w_fs w) path)).

Definition print (line : string) : io FS unit := emit (Print line).

Definition urlopen_read (url : string) (timeout : Z) : io FS Bytes :=
  emit (UrlOpen url timeout) ;;;
  match net url timeout with
  | inr data => ret data
  | inl e => raise e
  end.

(** lift a file-system call that may raise *)
Definition fs_call (f : FS -> FS * option exn) : io FS unit :=
  fun w =>
    let '(fs', r) := f (w_fs w) in
    (World fs' (w_trace w),
     match r with Some e => inl e | None => inr tt end).

Definition write_file (path : string) (data : Bytes) : io FS unit :=
  emit (WriteFile path) ;;; fs_call (fs_write path data).

Definition extractall (archive dest : string) : io FS unit :=
  emit (ExtractAll archive dest) ;;; fs_call (fs_extractall archive dest).

Definition url : string :=
  "https://download.pytorch.org/tutorial/hymenoptera_data.zip".

Definition data_zip (dataset_dir : string) : string :=
  os_path_join dataset_dir "hymenoptera_data.zip".

Definition data_path (dataset_dir : string) : string :=
  os_path_join dataset_dir "hymenoptera_data".

Definition done_message (dataset_dir : string) : string :=
  "Data has been downloaded and extracted to " +:+ dataset_dir +:+ ".".

(** The notebook's function, statement by statement. *)
Definition download_and_extract_data (dataset_dir : string) : io FS unit :=
  have_path <- path_exists (data_path dataset_dir) ;;
  when (negb have_path) (
    have_zip <- path_exists (data_zip dataset_dir) ;;
    when (negb have_zip) (
      print "Starting to download data..." ;;;
      data <- urlopen_read url 15 ;;
      write_file (data_zip dataset_dir) data) ;;;
    print "Starting to extract data..." ;;;
    extractall (data_zip dataset_dir) dataset_dir) ;;;
  print (done_message dataset_dir).

(** The default of the keyword argument, used by the call in the cell. *)
Definition default_dataset_dir : string := "datasets".

(** Running from a file system with an empty trace. *)
Definition run (dataset_dir : string) (fs : FS) : world FS * (exn + unit) :=
  download_and_extract_data dataset_dir (World fs []).

End Acquisition.

(** *** The outcomes of a run, written out *)

Section Outcomes.
Context {FS Bytes : Type} `{FileSystem FS Bytes}.

Definition downloading : event := Print "Starting to download data...".
Definition extracting : event := Print "Starting to extract data...".
Definition finished (dataset_dir : string) : event :=
  Print (done_message dataset_dir).

(** the outcome of [extractall] and everything after it, from a world
    whose trace so far is [t] *)
Definition extract_then_finish (dataset_dir : string) (t : list event)
    (fs : FS) : world FS * (exn + unit) :=
  let zip := data_zip dataset_dir in
  match fs_extractall zip dataset_dir fs with
  | (fs', None) =>
      (World fs' (t ++ [extracting; ExtractAll zip dataset_dir;
                        finished dataset_dir])%list, inr tt)
  | (fs', Some e) =>
      (World fs' (t ++ [extracting; ExtractAll zip dataset_dir])%list, inl e)
  end.

(** the outcome of a download and everything after it *)
Definition download_then_finish (net : network Bytes) (dataset_dir : string)
    (fs : FS) : world FS * (exn + unit) :=
  let zip := data_zip dataset_dir in
  match net url 15%Z with
  | inl e => (World fs [downloading; UrlOpen url 15], inl e)
  | inr payload =>
      match fs_write zip payload fs with
      | (fs', Some e) =>
          (World fs' [downloading; UrlOpen url 15; WriteFile zip], inl e)
      | (fs', None) =>
          extract_then_finish dataset_dir
            [downloading; UrlOpen url 15; WriteFile zip] fs'
      end
  end.
End Outcomes.

(** *** Observations on a trace *)

Definition is_request (e : event) : bool :=
  match e with UrlOpen _ _ => true | _ => false end.

Definition is_write (e : event) : bool :=
  match e with WriteFile _ => true | _ => false end.

Definition is_extraction (e : event) : bool :=
  match e with ExtractAll _ _ => true | _ => false end.

Definition requests (t : list event) : list event := List.filter is_request t.
Definition writes (t : list event) : list event := List.filter is_write t.
Definition extractions (t : list event) : list event :=
  List.filter is_extraction t.

(** *** A reference file system

    One instance of the interface, used to run the function on concrete
    disks: a finite map from path strings to nodes.  The content of a
    file is either opaque octets or a readable archive with its members
    (relative name, octets); a member whose name ends with the separator
    is a directory entry. *)

Inductive blob : Type :=
  | Raw (octets : string)
  | Zip (members : list (string * string)).

Inductive node : Type :=
  | Dir
  | File (content : blob).

(** every proper ancestor of a path: the text before each separator *)
Fixpoint ancestors_from (seen rest : string) : list string :=
  match rest with
  | EmptyString => []
  | String c rest' =>
      let here := if Ascii.eqb c "/"%char
                  then (if String.eqb seen "" then [] else [seen])
                  else [] in
      (here ++ ancestors_from (seen +:+ String c EmptyString) rest')%list
  end.

Definition ancestors (path : string) : list string := ancestors_from "" path.

(** the nearest ancestor of a path, or the empty string: what
    [os.path.dirname] gives on the relative paths built here *)
Definition dirname (path : string) : string :=
  List.last (ancestors path) "".

Definition is_dir (d : gmap string node) (path : string) : bool :=
  match d !! path with Some Dir => true | _ => false end.

Definition is_file (d : gmap string node) (path : string) : bool :=
  match d !! path with Some (File _) => true | _ => false end.

(** [os.makedirs(path, exist_ok=True)] over a list of directories, outermost
    first: fails on meeting a regular file *)
Fixpoint mkdirs (dirs : list string) (d : gmap string node)
  : gmap string node * option exn :=
  match dirs with
  | [] => (d, None)
  | p :: rest =>
      if is_file d p then (d, Some (OSError ("Not a directory: " +:+ p)))
      else mkdirs rest (<[p := Dir]> d)
  end.

(** open for writing, truncating: the parent must be a directory (the
    working directory for a bare name) and the path must not be one *)
Definition disk_write (path : string) (data : blob) (d : gmap string node)
  : gmap string node * option exn :=
  if is_dir d path then (d, Some (OSError ("Is a directory: " +:+ path)))
  else if String.eqb (dirname path) "" || is_dir d (dirname path)
  then (<[path := File data]> d, None)
  else (d, Some (OSError ("No such file or directory: " +:+ path))).

Definition extract_member (dest : string) (m : string * string)
    (d : gmap string node) : gmap string node * option exn :=
  let target := os_path_join dest (fst m) in
  match mkdirs (ancestors target) d with
  | (d', Some e) => (d', Some e)
  | (d', None) =>
      if endswith_sep (fst m) then (d', None)
      else disk_write target (Raw (snd m)) d'
  end.

Fixpoint extract_members (dest : string) (ms : list (string * string))
    (d : gmap string node) : gmap string node * option exn :=
  match ms with
  | [] => (d, None)
  | m :: rest =>
      match extract_member dest m d with
      | (d', Some e) => (d', Some e)
      | (d', None) => extract_members dest rest d'
      end
  end.

Definition disk_extractall (archive dest : string) (d : gmap string node)
  : gmap string node * option exn :=
  match d !! archive with
  | None => (d, Some (OSError ("No such file or directory: " +:+ archive)))
  | Some Dir => (d, Some (OSError ("Is a directory: " +:+ archive)))
  | Some (File (Raw _)) => (d, Some (BadZipFile "File is not a zip file"))
  | Some (File (Zip ms)) => extract_members dest ms d
  end.

#[export] Instance disk_fs : FileSystem (gmap string node) blob := {
  fs_exists d path := bool_decide (is_Some (d !! path));
  fs_write := disk_write;
  fs_extractall := disk_extractall
}.

(** an archive laid out as the function expects: some member lies under
    the directory [hymenoptera_data] *)
Definition well_laid (b : blob) : bool :=
  match b with
  | Raw _ => false
  | Zip ms => existsb (fun m => startswith "hymenoptera_data/" (fst m)) ms
  end.

(** Sample worlds for the reference file system. *)

(** the archive behind [url], reduced to one image per class and split *)
Definition hymenoptera_zip : blob :=
  Zip [ ("hymenoptera_data/", "");
        ("hymenoptera_data/train/ants/0013035.jpg", "JFIF-a");
        ("hymenoptera_data/train/bees/1092977343_cb42b38d62.jpg", "JFIF-b");
        ("hymenoptera_data/val/ants/10308379_1b6c72e180.jpg", "JFIF-c");
        ("hymenoptera_data/val/bees/1032546534_06907fe3b3.jpg", "JFIF-d") ].

Definition net_up : network blob := fun _ _ => inr hymenoptera_zip.

Definition net_down : network blob :=
  fun _ _ => inl (URLError "timed out").

(** only the target directory exists *)
Definition disk_fresh : gmap string node := {[ "datasets" := Dir ]}.

(** the archive is there, the extracted directory is not *)
Definition disk_zip_only : gmap string node :=
  {[ "datasets" := Dir;
     "datasets/hymenoptera_data.zip" := File hymenoptera_zip ]}.

(** the disk after one run from [disk_fresh] with the network up *)
Definition disk_after_run : gmap string node :=
  w_fs (fst (run net_up default_dataset_dir disk_fresh)).

End Acquire.

(** ** Part 2: the configuration cells *)

Module Notebook.

Import Acquire.

(** *** Transform pipelines *)

(** The torchvision transforms the notebook names, with their arguments. *)
Inductive transform : Type :=
  | RandomResizedCrop (size : Z)
  | RandomHorizontalFlip
  | ToTensor
  | Normalize (mean std : list Q)
  | Resize (size : Z)
  | CenterCrop (size : Z).

(** [transforms.Compose([...])]: the stages, first to last *)
Definition train_transforms : list transform :=
  [ RandomResizedCrop 224;
    RandomHorizontalFlip;
    ToTensor;
    Normalize [0.485; 0.456; 0.406]%Q [0.229; 0.224; 0.225]%Q ].

Definition val_transforms : list transform :=
  [ Resize 256;
    CenterCrop 224;
    ToTensor;
    Normalize [0.485; 0.456; 0.406]%Q [0.229; 0.224; 0.225]%Q ].

(** the ImageNet statistics *)
Definition imagenet_mean : list Q := [0.485; 0.456; 0.406]%Q.
Definition imagenet_std : list Q := [0.229; 0.224; 0.225]%Q.

(** the (mean, std) of every normalization stage of a pipeline, in order *)
Fixpoint normalizations (p : list transform) : list (list Q * list Q) :=
  match p with
  | [] => []
  | Normalize mean std :: rest => (mean, std) :: normalizations rest
  | _ :: rest => normalizations rest
  end.

(** whether a transform draws from the random generator *)
Definition is_random (t : transform) : bool :=
  match t with
  | RandomResizedCrop _ | RandomHorizontalFlip => true
  | _ => false
  end.

(** The kernels behind the transforms, taken from torchvision: each is a
    function of its arguments, and of the generator state where it draws
    from it. [I] is a decoded image, [T] a tensor, [G] the generator. *)
Class Kernels (I T G : Type) : Type := {
  random_resized_crop : Z -> G -> I -> I * G;
  random_horizontal_flip : G -> I -> I * G;
  resize : Z -> I -> I;
  center_crop : Z -> I -> I;
  to_tensor : I -> T;
  normalize : list Q -> list Q -> T -> T
}.

(** a value flowing through a pipeline *)
Inductive datum (I T : Type) : Type :=
  | Image (img : I)
  | Tensor (t : T).
Arguments Image {I T} img.
Arguments Tensor {I T} t.

Section Pipeline.
Context {I T G : Type} `{Kernels I T G}.

(** one stage; [None] when the stage is given the wrong kind of value *)
Definition apply_transform (t : transform) (g : G) (x : datum I T)
  : option (datum I T) * G :=
  match t, x with
  | RandomResizedCrop size, Image img =>
      let '(img', g') := random_resized_crop size g img in
      (Some (Image img'), g')
  | RandomHorizontalFlip, Image img =>
      let '(img', g') := random_horizontal_flip g img in
      (Some (Image img'), g')
  | Resize size, Image img => (Some (Image (resize size img)), g)
  | CenterCrop size, Image img => (Some (Image (center_crop size img)), g)
  | ToTensor, Image img => (Some (Tensor (to_tensor img)), g)
  | Normalize mean std, Tensor t => (Some (Tensor (normalize mean std t)), g)
  | _, _ => (None, g)
  end.

(** [Compose.__call__]: the stages in order *)
Fixpoint compose (p : list transform) (g : G) (x : datum I T)
  : option (datum I T) * G :=
  match p with
  | [] => (Some x, g)
  | t :: rest =>
      match apply_transform t g x with
      | (Some y, g') => compose rest g' y
      | (None, g') => (None, g')
      end
  end.
End Pipeline.

(** *** The model *)

Section Model.
Context {V : Type}.

(** [nn.Parameter]: a tensor and its [requires_grad] flag *)
Record parameter : Type := Param { data : V; requires_grad : bool }.

(** a fresh parameter is trainable *)
Definition new_parameter (v : V) : parameter := Param v true.

(** [PretrainedModel.__init__]: the pretrained network with its [fc]
    replaced by a new linear layer, held under the attribute [model];
    the result is [named_parameters()].  [resnet18] is the pretrained
    state (names such as [conv1.weight], [fc.weight]), [fc_weight] and
    [fc_bias] the initial values of the new layer. *)
Definition PretrainedModel (resnet18 : list (string * V))
    (fc_weight fc_bias : V) : gmap string parameter :=
  let backbone :=
    List.filter (fun kv => negb (startswith "fc." (fst kv))) resnet18 in
  let model :=
    (backbone ++ [("fc.weight", fc_weight); ("fc.bias", fc_bias)])%list in
  list_to_map
    (List.map (fun kv => ("model." +:+ fst kv, new_parameter (snd kv))) model).
End Model.
Arguments parameter : clear implicits.

(** *** Callbacks *)

Inductive lr_policy : Type := StepLR.

Inductive callback : Type :=
  | LRScheduler (policy : lr_policy) (step_size : nat) (gamma : Q)
  | Checkpoint (f_params : string) (monitor : string)
  | Freezer (patterns : string -> bool).

Definition lrscheduler : callback := LRScheduler StepLR 7 0.1%Q.

Definition checkpoint : callback := Checkpoint "best_model.pt" "valid_acc_best".

Definition freezer : callback :=
  Freezer (fun x => negb (startswith "model.fc" x)).

(** *** The classifier *)

Inductive module_t : Type := PretrainedModel_class.
Inductive criterion_t : Type := CrossEntropyLoss.
Inductive optimizer_t : Type := SGD.
Inductive device_t : Type := cpu | cuda.
Inductive split_t : Type := predefined_split_val_ds.

Record NeuralNetClassifier : Type := {
  module : module_t;
  criterion : criterion_t;
  lr : Q;
  batch_size : nat;
  max_epochs : nat;
  module__output_features : nat;
  optimizer : optimizer_t;
  optimizer__momentum : Q;
  iterator_train__shuffle : bool;
  iterator_train__num_workers : nat;
  iterator_valid__shuffle : bool;
  iterator_valid__num_workers : nat;
  train_split : split_t;
  callbacks : list callback;
  device : device_t
}.

Definition net : NeuralNetClassifier := {|
  module := PretrainedModel_class;
  criterion := CrossEntropyLoss;
  lr := 0.001%Q;
  batch_size := 4;
  max_epochs := 25;
  module__output_features := 2;
  optimizer := SGD;
  optimizer__momentum := 0.9%Q;
  iterator_train__shuffle := true;
  iterator_train__num_workers := 2;
  iterator_valid__shuffle := true;
  iterator_valid__num_workers := 2;
  train_split := predefined_split_val_ds;
  callbacks := [lrscheduler; checkpoint; freezer];
  device := cuda
|}.

End Notebook.

(** ** Part 3: the training loop behind [net.fit]

    The notebook hands its configuration to skorch, whose sources are not
    part of the notebook.  The loop below is modelled from the
    specification of the repository (sections 4.4, 6 and 7); the printed
    table of the notebook's last cell is used to check it. *)

Module Skorch.

Import Acquire Notebook.

(** The numerical back end, taken from torch.  [V] is a tensor, [X] a
    sample of a dataset, [G] the state of the random generator, [B] the
    state the optimizer keeps between steps (momentum buffers). *)
Class Torch (V X G B : Type) : Type := {
  (* one SGD step on a batch at a learning rate and momentum: the new
     optimizer state and the values it computes for the weights *)
  sgd_step : Q -> Q -> list X -> B -> gmap string V -> B * gmap string V;
  (* whether the weights classify a sample correctly *)
  predict_ok : gmap string V -> X -> bool;
  (* the order a shuffling loader visits a dataset in *)
  randperm : G -> list X -> list X * G;
  (* a shuffle visits every sample once *)
  randperm_perm : forall g l, fst (randperm g l) ≡ₚ l
}.

(** Modelled from the spec: the machine a run is on, with or without the
    accelerator that [device] may ask for (section 6). *)
Record machine : Type := { cuda_is_available : bool }.

(** Modelled from the spec: the fatal error of section 7 (c). *)
Inductive fit_error : Type :=
  | DeviceUnavailable (requested : device_t).

(** Modelled from the spec: one line of the table [fit] prints (skorch's
    History, not under src/), with the counts of what the epoch did. *)
Record row : Type := {
  epoch : nat;
  row_lr : Q;                 (* the rate the epoch's steps ran at *)
  train_batch_count : nat;    (* optimizer steps taken in the epoch *)
  valid_batch_count : nat;
  valid_images : nat;         (* images scored in the validation pass *)
  valid_acc : Q;
  valid_acc_best : bool
}.

Section State.
Context {V G B : Type}.

(** Modelled from the spec: what a fitted classifier holds (skorch's
    NeuralNet attributes, not under src/), with the files it has saved. *)
Record net_state : Type := {
  module_ : gmap string (parameter V);
  optimizer_ : B;
  generator : G;
  optimizer_lr : Q;            (* lr of the optimizer's parameter group *)
  last_epoch : nat;            (* the scheduler's count of its steps *)
  best_score : option Q;       (* best validation accuracy so far *)
  files : gmap string (gmap string V);  (* saved parameter files *)
  saves : list (string * nat); (* file written, at the end of epoch *)
  history : list row
}.

Definition with_module (m : gmap string (parameter V)) (st : net_state)
  : net_state :=
  {| module_ := m; optimizer_ := optimizer_ st; generator := generator st;
     optimizer_lr := optimizer_lr st; last_epoch := last_epoch st;
     best_score := best_score st; files := files st; saves := saves st;
     history := history st |}.

Definition with_schedule (rate : Q) (k : nat) (st : net_state) : net_state :=
  {| module_ := module_ st; optimizer_ := optimizer_ st;
     generator := generator st;
     optimizer_lr := rate; last_epoch := k;
     best_score := best_score st; files := files st; saves := saves st;
     history := history st |}.

Definition weights (m : gmap string (parameter V)) : gmap string V :=
  data <$> m.

Definition with_save (path : string) (st : net_state) : net_state :=
  {| module_ := module_ st; optimizer_ := optimizer_ st;
     generator := generator st;
     optimizer_lr := optimizer_lr st; last_epoch := last_epoch st;
     best_score := best_score st;
     files := <[path := weights (module_ st)]> (files st);
     saves := (saves st ++ [(path, length (history st))])%list;
     history := history st |}.
End State.
Arguments net_state : clear implicits.

(** *** Batching *)

(** Modelled from the spec: mini-batches, consecutive slices of [n]
    elements, the last one possibly shorter (torch's DataLoader). *)
Fixpoint batches_fuel {A} (fuel n : nat) (l : list A) : list (list A) :=
  match fuel with
  | O => []
  | S fuel' =>
      match l with
      | [] => []
      | _ => take n l :: batches_fuel fuel' n (drop n l)
      end
  end.

Definition batches {A} (n : nat) (l : list A) : list (list A) :=
  batches_fuel (length l) n l.

(** the least number of batches of [n] that hold [a] samples *)
Definition ceil_div (a n : nat) : nat := (a + n - 1) / n.

(** *** Scores *)

Definition Qltb (a b : Q) : bool := negb (Qle_bool b a).

(** Modelled from the spec: the validation accuracy reported after an
    epoch, the share of the validation images classified right. *)
Definition accuracy (correct total : nat) : Q :=
  (inject_Z (Z.of_nat correct) / inject_Z (Z.of_nat total))%Q.

(** Modelled from the spec: the scoring behind the monitored
    [valid_acc_best] (skorch's EpochScoring, not under src/): an epoch is
    the best when its validation accuracy strictly improves on the best
    seen so far; the first epoch has nothing to improve on and is the
    best (the printed table marks epoch 1). *)
Definition is_best (best : option Q) (acc : Q) : bool :=
  match best with
  | None => true
  | Some b => Qltb b acc
  end.

(** the best accuracy of a column, read top to bottom *)
Definition running_best (accs : list Q) : option Q :=
  foldl (fun b a => if is_best b a then Some a else b) None accs.

(** the marks [is_best] gives along a column of accuracies *)
Fixpoint best_marks (best : option Q) (accs : list Q) : list bool :=
  match accs with
  | [] => []
  | a :: rest =>
      is_best best a
      :: best_marks (if is_best best a then Some a else best) rest
  end.

(** Modelled from the spec: the value a monitor name reads in the last
    row of the history (skorch's History, not under src/). *)
Definition monitor_value (monitor : string) (r : row) : option bool :=
  if String.eqb monitor "valid_acc_best" then Some (valid_acc_best r)
  else None.

Section Fit.
Context {V X G B : Type} `{Torch V X G B}.

(** Modelled from the spec: the freezing policy (skorch's Freezer, not
    under src/): every parameter whose name the predicate accepts is
    marked non-trainable. *)
Definition freeze (patterns : string -> bool)
    (m : gmap string (parameter V)) : gmap string (parameter V) :=
  map_imap
    (fun name p => Some (if patterns name then Param (data p) false else p))
    m.

(** Modelled from the spec: an update touches only the parameters the
    freezing policy left trainable (the optimizer skips a parameter
    without gradient). *)
Definition optimizer_step (computed : gmap string V)
    (m : gmap string (parameter V)) : gmap string (parameter V) :=
  map_imap
    (fun name p =>
       Some (if requires_grad p
             then match computed !! name with
                  | Some v => Param v true
                  | None => p
                  end
             else p))
    m.

(** Modelled from the spec: one training step (skorch's train_step, not
    under src/): loss, backpropagation and update on one batch. *)
Definition train_step (rate momentum : Q)
    (acc : gmap string (parameter V) * B * nat) (batch : list X)
  : gmap string (parameter V) * B * nat :=
  let '(m, o, n) := acc in
  let '(o', computed) := sgd_step rate momentum batch o (weights m) in
  (optimizer_step computed m, o', S n).

(** Modelled from the spec: scoring one validation batch (skorch's
    validation_step, not under src/): batches and images seen, images
    classified right. *)
Definition validation_step (w : gmap string V) (acc : nat * nat * nat)
    (batch : list X) : nat * nat * nat :=
  let '(nb, seen, ok) := acc in
  (S nb, seen + length batch,
   ok + length (List.filter (predict_ok w) batch)).

(** Modelled from the spec: the loader (torch's DataLoader as skorch
    sets it up): the dataset, shuffled when asked, in batches. *)
Definition data_loader (shuffle : bool) (n : nat) (g : G) (ds : list X)
  : list (list X) * G :=
  let '(order, g') := if shuffle then randperm g ds else (ds, g) in
  (batches n order, g').

(** Modelled from the spec: callbacks before training begins (skorch's
    callbacks, not under src/). *)
Definition on_train_begin (cb : callback) (st : net_state V G B)
  : net_state V G B :=
  match cb with
  | Freezer patterns => with_module (freeze patterns (module_ st)) st
  | _ => st
  end.

(** Modelled from the spec: callbacks at the end of an epoch (skorch's
    callbacks, not under src/).  The scheduler multiplies the rate by
    [gamma] every [step_size] epochs; the checkpoint persists the model
    to its path when the monitored value says so. *)
Definition on_epoch_end (cb : callback) (st : net_state V G B)
  : net_state V G B :=
  match cb with
  | LRScheduler StepLR step_size gamma =>
      let k := S (last_epoch st) in
      with_schedule
        (if Nat.eqb (k mod step_size) 0
         then (optimizer_lr st * gamma)%Q else optimizer_lr st)
        k st
  | Checkpoint f_params monitor =>
      match last (history st) with
      | Some r =>
          match monitor_value monitor r with
          | Some true => with_save f_params st
          | _ => st
          end
      | None => st
      end
  | Freezer _ => st
  end.

(** Modelled from the spec: the training half of an epoch (skorch's fit
    loop, not under src/): the training set in batches, one step each
    at the rate the epoch starts with.  Gives the model, the optimizer
    state, the number of steps taken and the generator. *)
Definition train_epoch (cfg : NeuralNetClassifier) (train_ds : list X)
    (st : net_state V G B) : gmap string (parameter V) * B * nat * G :=
  let '(train_batches, g1) :=
    data_loader (iterator_train__shuffle cfg) (batch_size cfg)
      (generator st) train_ds in
  (foldl (train_step (optimizer_lr st) (optimizer__momentum cfg))
     (module_ st, optimizer_ st, 0) train_batches, g1).

(** Modelled from the spec: the validation half of an epoch: one pass
    over the validation set in batches.  Gives the number of batches,
    of images scored and of images classified right, and the
    generator. *)
Definition valid_epoch (cfg : NeuralNetClassifier) (val_ds : list X)
    (w : gmap string V) (g : G) : nat * nat * nat * G :=
  let '(valid_batches, g2) :=
    data_loader (iterator_valid__shuffle cfg) (batch_size cfg) g val_ds in
  (foldl (validation_step w) (0, 0, 0) valid_batches, g2).

(** Modelled from the spec: the row of an epoch and the state with it,
    before the callbacks of the notebook see it (skorch's default
    callbacks, not under src/). *)
Definition record_epoch (st : net_state V G B)
    (m1 : gmap string (parameter V)) (o1 : B) (n_train : nat)
    (n_valid seen ok : nat) (g2 : G) : net_state V G B :=
  let acc := accuracy ok seen in
  let best := is_best (best_score st) acc in
  let r := {| epoch := S (length (history st));
              row_lr := optimizer_lr st;
              train_batch_count := n_train;
              valid_batch_count := n_valid;
              valid_images := seen;
              valid_acc := acc;
              valid_acc_best := best |} in
  {| module_ := m1; optimizer_ := o1; generator := g2;
     optimizer_lr := optimizer_lr st; last_epoch := last_epoch st;
     best_score := if best then Some acc else best_score st;
     files := files st; saves := saves st;
     history := (history st ++ [r])%list |}.

(** Modelled from the spec: the callbacks of the configuration, invoked
    in list order at the epoch boundary (section 9). *)
Definition notify_epoch_end (cfg : NeuralNetClassifier)
    (st : net_state V G B) : net_state V G B :=
  foldl (fun s cb => on_epoch_end cb s) st (callbacks cfg).

(** Modelled from the spec: one epoch of [fit] (skorch's fit loop, not
    under src/): training, then validation, then the callbacks. *)
Definition run_epoch (cfg : NeuralNetClassifier) (train_ds val_ds : list X)
    (st : net_state V G B) : net_state V G B :=
  let '(m1, o1, n_train, g1) := train_epoch cfg train_ds st in
  let '(n_valid, seen, ok, g2) := valid_epoch cfg val_ds (weights m1) g1 in
  notify_epoch_end cfg (record_epoch st m1 o1 n_train n_valid seen ok g2).

(** Modelled from the spec: a fixed number of epochs, one after the
    other (skorch's fit_loop, not under src/). *)
Fixpoint fit_loop (cfg : NeuralNetClassifier) (train_ds val_ds : list X)
    (epochs : nat) (st : net_state V G B) : net_state V G B :=
  match epochs with
  | O => st
  | S k => run_epoch cfg train_ds val_ds (fit_loop cfg train_ds val_ds k st)
  end.

(** Modelled from the spec: what a run starts from: the machine, the
    pretrained weights, the new layer, the seeded generator, the files on
    disk and the two datasets. *)
Record session : Type := {
  host : machine;
  resnet18 : list (string * V);   (* the pretrained network, by name *)
  fc_weight : V;                  (* the new layer as it is created *)
  fc_bias : V;
  init_optimizer : B;
  seed : G;
  disk : gmap string (gmap string V);
  train_ds : list X;
  val_ds : list X
}.

(** Modelled from the spec: the module [fit] instantiates (skorch's
    initialize_module, not under src/): the class given to the
    classifier. *)
Definition initial_module (cfg : NeuralNetClassifier) (s : session)
  : gmap string (parameter V) :=
  match module cfg with
  | PretrainedModel_class =>
      PretrainedModel (resnet18 s) (fc_weight s) (fc_bias s)
  end.

(** Modelled from the spec: the state before training (skorch's
    initialize, not under src/): the optimizer at the configured rate,
    nothing scored, nothing saved. *)
Definition initialize (cfg : NeuralNetClassifier) (s : session)
  : net_state V G B :=
  {| module_ := initial_module cfg s; optimizer_ := init_optimizer s;
     generator := seed s;
     optimizer_lr := lr cfg; last_epoch := 0; best_score := None;
     files := disk s; saves := []; history := [] |}.

(** Modelled from the spec: the state training starts from: initialized,
    callbacks notified in list order. *)
Definition train_begin (cfg : NeuralNetClassifier) (s : session)
  : net_state V G B :=
  foldl (fun st cb => on_train_begin cb st) (initialize cfg s) (callbacks cfg).

(** Modelled from the spec: the state after the first [k] epochs of a
    run. *)
Definition after_epochs (cfg : NeuralNetClassifier) (s : session) (k : nat)
  : net_state V G B :=
  fit_loop cfg (train_ds s) (val_ds s) k (train_begin cfg s).

(** Modelled from the spec: moving the model to the requested device
    (skorch's initialization, not under src/): a requested accelerator
    that is absent is fatal. *)
Definition device_ready (m : machine) (d : device_t) : bool :=
  match d with
  | cpu => true
  | cuda => cuda_is_available m
  end.

(** Modelled from the spec: [net.fit] (skorch's NeuralNet.fit, not under
    src/): the device first, then [max_epochs] epochs. *)
Definition fit (cfg : NeuralNetClassifier) (s : session)
  : fit_error + net_state V G B :=
  if device_ready (host s) (device cfg)
  then inr (after_epochs cfg s (max_epochs cfg))
  else inl (DeviceUnavailable (device cfg)).
End Fit.
Arguments session : clear implicits.

(** *** Notions the properties of a run are stated with *)

(** the file the checkpoint of the notebook writes *)
Definition checkpoint_path : string := "best_model.pt".

Section Notions.
Context {V X G B : Type} `{Torch V X G B}.

(** what training may do to a model: every parameter keeps its
    [requires_grad] flag, and a parameter that is not trainable keeps
    its value *)
Definition policy_kept (m m' : gmap string (parameter V)) : Prop :=
  forall name,
    requires_grad <$> (m' !! name) = requires_grad <$> (m !! name)
    /\ (forall p, m !! name = Some p -> requires_grad p = false ->
                 m' !! name = Some p).

(** the model a run instantiates, before any callback *)
Definition pretrained (s : session V X G B) : gmap string (parameter V) :=
  PretrainedModel (resnet18 s) (fc_weight s) (fc_bias s).

(** the validation accuracies of the first [k] epochs of a run *)
Definition accs (s : session V X G B) (k : nat) : list Q :=
  valid_acc <$> history (after_epochs net s k).
End Notions.

End Skorch.

(** ** Sample instances

    Small concrete back ends, used to run the definitions. *)

Module Sample.

Import Acquire Notebook Skorch.

(** images as lists of pixel values, tensors as lists of rationals, the
    generator as a counter of the draws made *)
#[export] Instance toy_kernels : Kernels (list Z) (list Q) nat := {
  random_resized_crop size g img := (take (Z.to_nat size) (drop g img), S g);
  random_horizontal_flip g img := (if Nat.even g then rev img else img, S g);
  resize size img := take (Z.to_nat size) img;
  center_crop size img := take (Z.to_nat size) img;
  to_tensor img := List.map (fun p => (inject_Z p / 255)%Q) img;
  normalize mean std t :=
    List.map (fun x => ((x - List.hd 0%Q mean) / List.hd 1%Q std)%Q) t
}.

(** weights are integers and a step adds one to each; a sample is the
    least value of [model.fc.weight] that classifies it right; shuffling
    reverses the dataset *)
#[export] Instance toy_torch : Torch Z Z nat nat := {
  sgd_step rate momentum batch o w := (S o, (fun v => (v + 1)%Z) <$> w);
  predict_ok w x :=
    match w !! "model.fc.weight" with
    | Some v => (x <=? v)%Z
    | None => false
    end;
  randperm g l := (rev l, S g);
  randperm_perm g l := Permutation_sym (Permutation_rev l)
}.

Definition toy_session (gpu : bool) : session Z Z nat nat := {|
  host := {| cuda_is_available := gpu |};
  resnet18 := [("conv1.weight", 10%Z); ("layer1.0.bn1.bias", 20%Z);
               ("fc.weight", 30%Z); ("fc.bias", 40%Z)];
  fc_weight := 0%Z;
  fc_bias := 0%Z;
  init_optimizer := 0;
  seed := 360;
  disk := ∅;
  train_ds := [1; 2; 3; 4; 5; 6; 7; 8; 9]%Z;
  val_ds := [3; 9; 40; 41; 500]%Z
|}.

(** the [valid_acc] column of the table the notebook shows, in units of
    one ten-thousandth *)
Definition printed_valid_acc : list Q :=
  List.map (fun n => (inject_Z n / 10000)%Q)
    [9477; 9346; 9412; 9346; 7778; 9216; 8889; 9477; 9477; 9281; 9346; 9477;
     9477; 9542; 9477; 9412; 9346; 9281; 9477; 9477; 9412; 9346; 9477; 9216;
     9477]%Z.

(** the epochs the table marks in its [cp] column *)
Definition printed_cp : list bool :=
  List.map (fun e => (e =? 1)%nat || (e =? 14)%nat) (seq 1 25).

End Sample.

(** ** Part 4: the remaining cells *)

Module Cells.

Import Acquire Notebook.

(** *** The installation cell *)

Inductive py_error : Type :=
  | ImportError (name : string)
  | FileNotFoundError (program : string).

(** what starting a program gives: it ran and exited with a status, or it
    could not be found *)
Inductive proc_outcome : Type :=
  | Exited (returncode : Z)
  | NoSuchProgram.

(** the machine's answer to an argument vector *)
Definition shell : Type := list string -> proc_outcome.

(** state (the argument vectors of the processes started, in order) and
    exceptions *)
Definition script (A : Type) : Type :=
  list (list string) -> list (list string) * (py_error + A).

Definition andthen {A B} (m : script A) (k : script B) : script B :=
  fun started =>
    match m started with
    | (started', inr _) => k started'
    | (started', inl e) => (started', inl e)
    end.

Notation "m ;> k" := (andthen m k) (at level 100, right associativity).

(** [import name], where [available] tells whether the module is installed *)
Definition import_module (available : bool) (name : string) : script unit :=
  fun started =>
    (started, if available then inr tt else inl (ImportError name)).

(** [subprocess.run(argv)], without [check]: the exit status is returned
    and raises nothing; a program that cannot be started raises *)
Definition subprocess_run (sh : shell) (argv : list string) : script Z :=
  fun started =>
    match sh argv with
    | Exited code => ((started ++ [argv])%list, inr code)
    | NoSuchProgram => (started, inl (FileNotFoundError (List.hd "" argv)))
    end.

(** [try: body / except ImportError: pass] *)
Definition try_except_ImportError {A} (body : script A) : script unit :=
  fun started =>
    match body started with
    | (started', inr _) => (started', inr tt)
    | (started', inl (ImportError _)) => (started', inr tt)
    | (started', inl e) => (started', inl e)
    end.

Definition pip_install : list string :=
  ["python"; "-m"; "pip"; "install"; "skorch"; "torchvision"].

Definition mkdir_datasets : list string := ["mkdir"; "-p"; "datasets"].

Definition wget_archive : list string :=
  ["wget"; "-nc"; "--no-check-certificate";
   "https://download.pytorch.org/tutorial/hymenoptera_data.zip";
   "-P"; "datasets"].

(** the source writes ['-d' 'datasets'] with no comma between the two
    literals, which is the single argument ['-ddatasets'] *)
Definition unzip_archive : list string :=
  ["unzip"; "-u"; "datasets/hymenoptera_data.zip"; "-d" +:+ "datasets"].

(** the cell, statement by statement; [colab] tells whether [google.colab]
    can be imported *)
Definition colab_setup (colab : bool) (sh : shell) : script unit :=
  try_except_ImportError (
    import_module true "os" ;>
    import_module colab "google.colab" ;>
    subprocess_run sh pip_install ;>
    subprocess_run sh mkdir_datasets ;>
    subprocess_run sh wget_archive ;>
    subprocess_run sh unzip_archive).

(** the four commands of the cell, in order *)
Definition install_commands : list (list string) :=
  [pip_install; mkdir_datasets; wget_archive; unzip_archive].

(** sample machines: every program is there and fails; [wget] is missing *)
Definition sh_all_fail : shell := fun _ => Exited 1.

Definition sh_no_wget : shell :=
  fun argv =>
    if String.eqb (List.hd "" argv) "wget" then NoSuchProgram else Exited 0.

(** *** The dataset cell *)






Definition net_garbage : network blob := fun _ _ => inr (Raw "<html>").

(** *** The freezer's predicate *)

Definition freezer_patterns : string -> bool :=
  match freezer with
  | Freezer patterns => patterns
  | _ => fun _ => false
  end.

(** the two steps of [PretrainedModel]: which pretrained entries stay,
    and the name and flag an entry gets *)
Definition kept {V} (kv : string * V) : bool :=
  negb (startswith "fc." (fst kv)).

Definition named {V} (kv : string * V) : string * parameter V :=
  ("model." +:+ fst kv, new_parameter (snd kv)).

(** a sample pretrained state *)
Definition toy_resnet18 : list (string * Z) :=
  [("conv1.weight", 10%Z); ("layer1.0.bn1.bias", 20%Z);
   ("fc.weight", 30%Z); ("fc.bias", 40%Z)].

End Cells.

(** ** Properties of the dataset acquisition *)

Module AcquireFacts.

Import Acquire.

Section RunFacts.
Context {FS Bytes : Type} `{FileSystem FS Bytes}.
Variable net : network Bytes.

(** The three ways through the function. *)
Lemma run_unfold (dataset_dir : string) (fs : FS) :
  run net dataset_dir fs =
    if fs_exists fs (data_path dataset_dir)
    then (World fs [finished dataset_dir], inr tt)
    else if fs_exists fs (data_zip dataset_dir)
         then extract_then_finish dataset_dir [] fs
         else download_then_finish net dataset_dir fs.
Proof.
  unfold run, download_and_extract_data, download_then_finish,
    extract_then_finish, urlopen_read, write_file, extractall, print,
    path_exists, fs_call, when, bind, emit, ret, raise; simpl.
  destruct (fs_exists fs (data_path dataset_dir)); simpl; [reflexivity|].
  destruct (fs_exists fs (data_zip dataset_dir)); simpl.
  - destruct (fs_extractall _ _ fs) as [fs' [e|]]; reflexivity.
  - destruct (net url 15%Z) as [e|payload]; simpl; [reflexivity|].
    destruct (fs_write _ payload fs) as [fs1 [e|]]; simpl; [reflexivity|].
    destruct (fs_extractall _ _ fs1) as [fs2 [e|]]; reflexivity.
Qed.

Lemma run_extracted (dataset_dir : string) (fs : FS) :
  fs_exists fs (data_path dataset_dir) = true ->
  run net dataset_dir fs = (World fs [finished dataset_dir], inr tt).
Proof. intros Hp. rewrite run_unfold, Hp. reflexivity. Qed.

Lemma requests_extract_then_finish dataset_dir t fs :
  requests (w_trace (fst (extract_then_finish dataset_dir t fs)))
  = requests t.
Proof.
  unfold extract_then_finish, requests.
  destruct (fs_extractall _ _ fs) as [fs' [e|]]; simpl;
    rewrite List.filter_app; simpl; apply app_nil_r.
Qed.

Lemma requests_run (dataset_dir : string) (fs : FS) :
  requests (w_trace (fst (run net dataset_dir fs)))
  = if fs_exists fs (data_path dataset_dir) || fs_exists fs (data_zip dataset_dir)
    then [] else [UrlOpen url 15].
Proof.
  rewrite run_unfold.
  destruct (fs_exists fs (data_path dataset_dir)); simpl; [reflexivity|].
  destruct (fs_exists fs (data_zip dataset_dir)); simpl.
  - apply requests_extract_then_finish.
  - unfold download_then_finish.
    destruct (net url 15%Z) as [e|payload]; simpl; [reflexivity|].
    destruct (fs_write _ payload fs) as [fs1 [e|]]; simpl; [reflexivity|].
    rewrite requests_extract_then_finish. reflexivity.
Qed.
End RunFacts.

Section Claims.
Context {FS Bytes : Type} `{FileSystem FS Bytes}.

(** C3. Dataset acquisition is idempotent.  On a file system where the
    extracted dataset directory already exists a call makes no request,
    writes no file, extracts nothing, leaves the file system as it is and
    reports success.  So a second call after a successful run, one that
    returned normally and left the extracted directory in place, leaves
    the file system unchanged, whatever the network then answers. *)
Theorem acquisition_idempotent (net net' : network Bytes)
    (dataset_dir : string) (fs : FS) :
  (fs_exists fs (data_path dataset_dir) = true ->
   run net dataset_dir fs = (World fs [finished dataset_dir], inr tt)
   /\ requests (w_trace (fst (run net dataset_dir fs))) = []
   /\ writes (w_trace (fst (run net dataset_dir fs))) = []
   /\ extractions (w_trace (fst (run net dataset_dir fs))) = [])
  /\ (forall w1,
        run net dataset_dir fs = (w1, inr tt) ->
        fs_exists (w_fs w1) (data_path dataset_dir) = true ->
        run net' dataset_dir (w_fs w1)
        = (World (w_fs w1) [finished dataset_dir], inr tt)).
Proof.
  split.
  - intros Hp. rewrite (run_extracted net _ _ Hp). simpl.
    repeat split.
  - intros w1 _ Hp. apply run_extracted, Hp.
Qed.

(** C9. The fetch is one request to the fixed archive address with a
    timeout of 15 seconds: a call makes no request or exactly that one;
    and when the request is made and fails, the call ends there with the
    error the request raised, after that single request, with nothing
    written to the file system. *)
Theorem fetch_once_fatal (net : network Bytes) (dataset_dir : string)
    (fs : FS) :
  let res := run net dataset_dir fs in
  (requests (w_trace (fst res)) = []
   \/ requests (w_trace (fst res)) = [UrlOpen url 15])
  /\ (forall e,
        net url 15%Z = inl e ->
        requests (w_trace (fst res)) <> [] ->
        res = (World fs [downloading; UrlOpen url 15], inl e)).
Proof.
  intros res. subst res. rewrite requests_run.
  destruct (fs_exists fs (data_path dataset_dir)) eqn:Hp; simpl.
  { split; [left; reflexivity | intros e _ Hne; contradiction]. }
  destruct (fs_exists fs (data_zip dataset_dir)) eqn:Hz; simpl.
  { split; [left; reflexivity | intros e _ Hne; contradiction]. }
  split; [right; reflexivity | intros e Hnet _].
  rewrite run_unfold, Hp, Hz. unfold download_then_finish.
  rewrite Hnet. reflexivity.
Qed.

(** C10. With the archive file on disk and the extracted directory
    missing, the function makes no request and writes no file; it
    extracts the local archive into the dataset directory, once, and
    the file system it leaves is the one that extraction leaves; when
    the extraction goes through it reports success. *)
Theorem local_archive_reused (net : network Bytes) (dataset_dir : string)
    (fs : FS) :
  fs_exists fs (data_zip dataset_dir) = true ->
  fs_exists fs (data_path dataset_dir) = false ->
  let res := run net dataset_dir fs in
  let zip := data_zip dataset_dir in
  requests (w_trace (fst res)) = []
  /\ writes (w_trace (fst res)) = []
  /\ extractions (w_trace (fst res)) = [ExtractAll zip dataset_dir]
  /\ w_fs (fst res) = fst (fs_extractall zip dataset_dir fs)
  /\ (snd (fs_extractall zip dataset_dir fs) = None ->
      res = (World (fst (fs_extractall zip dataset_dir fs))
               [extracting; ExtractAll zip dataset_dir;
                finished dataset_dir], inr tt)).
Proof.
  intros Hz Hp res zip. subst res zip.
  rewrite run_unfold, Hp, Hz. unfold extract_then_finish.
  destruct (fs_extractall _ _ fs) as [fs' [e|]]; simpl.
  - repeat split; try reflexivity. intros Hnone; discriminate.
  - repeat split; reflexivity.
Qed.
End Claims.

(** Idempotence on the reference file system: a first run from a disk
    holding only the target directory, with the network up, then a second
    run with the network down. *)
Lemma acquisition_idempotent_witness :
  run net_up default_dataset_dir disk_fresh
  = (World disk_after_run
       [downloading; UrlOpen url 15; WriteFile (data_zip default_dataset_dir);
        extracting;
        ExtractAll (data_zip default_dataset_dir) default_dataset_dir;
        finished default_dataset_dir], inr tt)
  /\ fs_exists disk_after_run (data_path default_dataset_dir) = true
  /\ run net_down default_dataset_dir disk_after_run
     = (World disk_after_run [finished default_dataset_dir], inr tt).
Proof.
  assert (Hrun : run net_up default_dataset_dir disk_fresh
                 = (World disk_after_run
                      [downloading; UrlOpen url 15;
                       WriteFile (data_zip default_dataset_dir);
                       extracting;
                       ExtractAll (data_zip default_dataset_dir)
                         default_dataset_dir;
                       finished default_dataset_dir], inr tt))
    by (vm_compute; reflexivity).
  assert (Hp : fs_exists disk_after_run (data_path default_dataset_dir) = true)
    by (vm_compute; reflexivity).
  split; [exact Hrun|]. split; [exact Hp|].
  exact (proj2 (acquisition_idempotent net_up net_down
                  default_dataset_dir disk_fresh) _ Hrun Hp).
Defined.

(** A failed fetch on the reference file system: nothing on disk, the
    network down. *)
Lemma fetch_once_fatal_witness :
  net_down url 15%Z = inl (URLError "timed out")
  /\ run net_down default_dataset_dir disk_fresh
     = (World disk_fresh [downloading; UrlOpen url 15],
        inl (URLError "timed out")).
Proof.
  split; [reflexivity|].
  apply (proj2 (fetch_once_fatal net_down default_dataset_dir disk_fresh)
           (URLError "timed out") eq_refl).
  vm_compute. discriminate.
Defined.

(** Reuse of the local archive on the reference file system: the archive
    is there, the network is down, and the images end up extracted. *)
Lemma local_archive_reused_witness :
  fs_exists disk_zip_only (data_zip default_dataset_dir) = true
  /\ fs_exists disk_zip_only (data_path default_dataset_dir) = false
  /\ requests (w_trace (fst (run net_down default_dataset_dir disk_zip_only)))
     = []
  /\ snd (run net_down default_dataset_dir disk_zip_only) = inr tt.
Proof.
  assert (Hz : fs_exists disk_zip_only (data_zip default_dataset_dir) = true)
    by (vm_compute; reflexivity).
  assert (Hp : fs_exists disk_zip_only (data_path default_dataset_dir) = false)
    by (vm_compute; reflexivity).
  destruct (local_archive_reused net_down default_dataset_dir disk_zip_only
              Hz Hp) as (Hreq & _ & _ & _ & Hok).
  split; [exact Hz|]. split; [exact Hp|]. split; [exact Hreq|].
  rewrite Hok; [reflexivity | vm_compute; reflexivity].
Defined.

(** *** On the reference file system

    A run that returns normally leaves the extracted directory in place
    whenever the archive it used is laid out as expected, so the second
    run finds it. *)

Lemma startswith_split (p s : string) :
  startswith p s = true -> exists rest, s = p +:+ rest.
Proof.
  unfold startswith. revert s.
  induction p as [|a p IH]; intros s Hs; [exists s; reflexivity|].
  destruct s as [|b s]; simpl in Hs; [discriminate|].
  destruct (ascii_dec a b) as [<-|]; [|discriminate].
  destruct (IH s Hs) as [rest ->]. exists rest. reflexivity.
Qed.

Lemma append_cons (x : ascii) (a b : string) :
  String x a +:+ b = String x (a +:+ b).
Proof. reflexivity. Qed.

Lemma append_nil_r (a : string) : a +:+ "" = a.
Proof.
  induction a as [|x a IH]; [reflexivity|]. rewrite append_cons, IH.
  reflexivity.
Qed.

Lemma app_assoc_string (a b c : string) : (a +:+ b) +:+ c = a +:+ (b +:+ c).
Proof.
  induction a as [|x a IH]; [reflexivity|]. rewrite !append_cons, IH.
  reflexivity.
Qed.

Lemma os_path_join_under (dir rest : string) :
  os_path_join dir ("hymenoptera_data/" +:+ rest)
  = os_path_join dir "hymenoptera_data" +:+ String "/" rest.
Proof.
  unfold os_path_join. simpl startswith. cbv iota.
  destruct (String.eqb dir "" || endswith_sep dir);
    rewrite ?app_assoc_string; reflexivity.
Qed.

Lemma os_path_join_nonempty (dir : string) :
  os_path_join dir "hymenoptera_data" <> "".
Proof.
  unfold os_path_join. simpl startswith. cbv iota.
  destruct (String.eqb dir "" || endswith_sep dir);
    destruct dir; discriminate.
Qed.

Lemma ancestors_from_mem (a seen rest : string) :
  seen +:+ a <> "" ->
  In (seen +:+ a) (ancestors_from seen (a +:+ String "/" rest)).
Proof.
  revert seen. induction a as [|c a IH]; intros seen Hne.
  - rewrite append_nil_r in *.
    change ("" +:+ String "/" rest) with (String "/" rest).
    simpl. destruct (String.eqb seen "") eqn:He.
    + apply String.eqb_eq in He. contradiction.
    + left. reflexivity.
  - rewrite append_cons. simpl. apply in_or_app. right.
    replace (seen +:+ String c a) with ((seen +:+ String c "") +:+ a)
      by (rewrite app_assoc_string; reflexivity).
    apply IH. rewrite app_assoc_string, append_cons.
    destruct seen; discriminate.
Qed.

Lemma ancestors_under (dir rest : string) :
  In (os_path_join dir "hymenoptera_data")
     (ancestors (os_path_join dir ("hymenoptera_data/" +:+ rest))).
Proof.
  rewrite os_path_join_under. unfold ancestors.
  apply (ancestors_from_mem _ ""). apply os_path_join_nonempty.
Qed.

Lemma is_dir_insert_dir (d : gmap string node) (p q : string) :
  is_dir d q = true -> is_dir (<[p := Dir]> d) q = true.
Proof.
  unfold is_dir. intros Hq.
  destruct (decide (p = q)) as [->|Hne].
  - rewrite lookup_insert_eq. reflexivity.
  - rewrite lookup_insert_ne by exact Hne. exact Hq.
Qed.

Lemma mkdirs_is_dir (dirs : list string) :
  forall (d d' : gmap string node),
    mkdirs dirs d = (d', None) ->
    (forall q, is_dir d q = true -> is_dir d' q = true)
    /\ (forall p, In p dirs -> is_dir d' p = true).
Proof.
  induction dirs as [|p dirs IH]; intros d d' Hm; simpl in Hm.
  - injection Hm as <-. split; [auto | intros p []].
  - destruct (is_file d p); [discriminate|].
    destruct (IH _ _ Hm) as [Hkeep Hnew]. split.
    + intros q Hq. apply Hkeep, is_dir_insert_dir, Hq.
    + intros q [<-|Hq]; [|apply Hnew, Hq].
      apply Hkeep. unfold is_dir. rewrite lookup_insert_eq. reflexivity.
Qed.

Lemma disk_write_is_dir (path : string) (data : blob)
    (d d' : gmap string node) (r : option exn) (q : string) :
  disk_write path data d = (d', r) ->
  is_dir d q = true -> is_dir d' q = true.
Proof.
  unfold disk_write. intros Hw Hq.
  destruct (is_dir d path) eqn:Hpath; [injection Hw as <- _; exact Hq|].
  destruct (String.eqb (dirname path) "" || is_dir d (dirname path));
    injection Hw as <- _; [|exact Hq].
  unfold is_dir. rewrite lookup_insert_ne; [exact Hq|].
  intros ->. congruence.
Qed.

Lemma extract_member_is_dir (dest : string) (m : string * string)
    (d d' : gmap string node) :
  extract_member dest m d = (d', None) ->
  (forall q, is_dir d q = true -> is_dir d' q = true)
  /\ (forall p, In p (ancestors (os_path_join dest (fst m))) ->
                is_dir d' p = true).
Proof.
  unfold extract_member. intros He.
  destruct (mkdirs _ d) as [d1 [e|]] eqn:Hm; [discriminate|].
  destruct (mkdirs_is_dir _ _ _ Hm) as [Hkeep Hnew].
  destruct (endswith_sep (fst m)).
  - injection He as <-. split; assumption.
  - split.
    + intros q Hq. eapply disk_write_is_dir; [exact He|]. apply Hkeep, Hq.
    + intros p Hp. eapply disk_write_is_dir; [exact He|]. apply Hnew, Hp.
Qed.

Lemma extract_members_is_dir (dest : string) (ms : list (string * string)) :
  forall (d d' : gmap string node),
    extract_members dest ms d = (d', None) ->
    (forall q, is_dir d q = true -> is_dir d' q = true)
    /\ (well_laid (Zip ms) = true ->
        is_dir d' (os_path_join dest "hymenoptera_data") = true).
Proof.
  induction ms as [|m ms IH]; intros d d' He; simpl in He.
  - injection He as <-. split; [auto | discriminate].
  - destruct (extract_member dest m d) as [d1 [e|]] eqn:Hm; [discriminate|].
    destruct (extract_member_is_dir _ _ _ _ Hm) as [Hkeep1 Hnew1].
    destruct (IH _ _ He) as [Hkeep Hlaid]. split.
    + intros q Hq. apply Hkeep, Hkeep1, Hq.
    + simpl. intros Hl. apply orb_true_iff in Hl as [Hm1|Hrest].
      * apply Hkeep, Hnew1.
        destruct (startswith_split _ _ Hm1) as [rest ->].
        apply ancestors_under.
      * apply Hlaid, Hrest.
Qed.

Lemma is_dir_exists (d : gmap string node) (p : string) :
  is_dir d p = true -> fs_exists d p = true.
Proof.
  unfold is_dir. simpl. intros Hp. apply bool_decide_eq_true_2.
  destruct (d !! p); [eauto | discriminate].
Qed.

(** extracting a well laid archive leaves the dataset directory *)
Lemma disk_extractall_acquires (dataset_dir zip : string)
    (d d' : gmap string node) :
  (forall b, d !! zip = Some (File b) -> well_laid b = true) ->
  disk_extractall zip dataset_dir d = (d', None) ->
  fs_exists d' (data_path dataset_dir) = true.
Proof.
  unfold disk_extractall. intros Hlaid He.
  destruct (d !! zip) as [[|[octets|ms]]|]; try discriminate.
  apply is_dir_exists.
  apply (extract_members_is_dir _ _ _ _ He). apply Hlaid. reflexivity.
Qed.

(** X5. On the reference file system, with archives laid out as expected
    (the one on disk, if any, and the one the network serves), a run that
    returns normally leaves the extracted directory in place, and a second
    run then changes nothing. *)
Lemma disk_second_run (net net' : network blob) (dataset_dir : string)
    (d : gmap string node) (w1 : world (gmap string node)) :
  (forall b, d !! data_zip dataset_dir = Some (File b) -> well_laid b = true) ->
  (forall b, net url 15%Z = inr b -> well_laid b = true) ->
  run net dataset_dir d = (w1, inr tt) ->
  fs_exists (w_fs w1) (data_path dataset_dir) = true
  /\ run net' dataset_dir (w_fs w1)
     = (World (w_fs w1) [finished dataset_dir], inr tt).
Proof.
  intros Hdisk Hnet Hrun.
  assert (Hp : fs_exists (w_fs w1) (data_path dataset_dir) = true).
  { rewrite run_unfold in Hrun.
    destruct (fs_exists d (data_path dataset_dir)) eqn:Hp.
    { injection Hrun as <-. exact Hp. }
    destruct (fs_exists d (data_zip dataset_dir)) eqn:Hz.
    - unfold extract_then_finish in Hrun.
      destruct (fs_extractall _ _ d) as [d' [e|]] eqn:He; [discriminate|].
      injection Hrun as <-. simpl w_fs.
      exact (disk_extractall_acquires _ _ _ _ Hdisk He).
    - unfold download_then_finish in Hrun.
      destruct (net url 15%Z) as [e|payload] eqn:Hpay; [discriminate|].
      destruct (fs_write _ payload d) as [d1 [e|]] eqn:Hw; [discriminate|].
      unfold extract_then_finish in Hrun.
      destruct (fs_extractall _ _ d1) as [d' [e|]] eqn:He; [discriminate|].
      injection Hrun as <-. simpl w_fs.
      apply (disk_extractall_acquires _ (data_zip dataset_dir) d1 d');
        [|exact He].
      intros b Hb. simpl in Hw. unfold disk_write in Hw.
      destruct (is_dir d (data_zip dataset_dir)); [discriminate|].
      destruct (String.eqb (dirname (data_zip dataset_dir)) ""
                || is_dir d (dirname (data_zip dataset_dir)));
        [|discriminate].
      injection Hw as <-. rewrite lookup_insert_eq in Hb.
      injection Hb as <-. apply Hnet. reflexivity. }
  split; [exact Hp | apply run_extracted, Hp].
Qed.

End AcquireFacts.

(** ** Properties of the transform pipelines *)

Module NotebookFacts.

Import Notebook Sample.

Section Pipelines.
Context {I T G : Type} `{Kernels I T G}.

(** a stage that is not random leaves the generator alone and does not
    look at it *)
Lemma apply_transform_fixed (t : transform) (g g' : G) (x : datum I T) :
  is_random t = false ->
  apply_transform t g x = (fst (apply_transform t g' x), g).
Proof. destruct t, x; simpl; intros Hr; try discriminate; reflexivity. Qed.

(** and so does a pipeline of such stages *)
Lemma compose_fixed (p : list transform) (g g' : G) (x : datum I T) :
  forallb (fun t => negb (is_random t)) p = true ->
  compose p g x = (fst (compose p g' x), g).
Proof.
  revert x g'.
  induction p as [|t p IH]; intros x g' Hp; simpl in *; [reflexivity|].
  apply andb_prop in Hp as [Ht Hp]. apply negb_true_iff in Ht.
  rewrite (apply_transform_fixed t g g' x Ht).
  destruct (apply_transform t g' x) as [[y|] g1]; simpl.
  - apply IH, Hp.
  - reflexivity.
Qed.

(** C6. The validation pipeline is deterministic: none of its stages
    draws from the random generator, so on one image it gives the same
    tensor whatever the state of the generator (in particular under one
    fixed seed), namely the normalized tensor of the center crop of the
    resized image, and it leaves the generator where it was. *)
Theorem val_transforms_deterministic (g1 g2 : G) (img : I) :
  forallb (fun t => negb (is_random t)) val_transforms = true
  /\ fst (compose val_transforms g1 (Image img))
     = fst (compose val_transforms g2 (Image img))
  /\ compose val_transforms g1 (Image img)
     = (Some (Tensor (normalize imagenet_mean imagenet_std
                        (to_tensor (center_crop 224 (resize 256 img))))),
        g1).
Proof.
  assert (Hfix : forallb (fun t => negb (is_random t)) val_transforms = true)
    by reflexivity.
  split; [exact Hfix|]. split.
  - rewrite (compose_fixed val_transforms g1 g2 _ Hfix). reflexivity.
  - reflexivity.
Qed.
End Pipelines.

(** C7. Both pipelines normalize channel-wise with the same constants:
    each has exactly one normalization stage, its last, with mean
    [0.485, 0.456, 0.406] and standard deviation [0.229, 0.224, 0.225]. *)
Theorem normalization_shared :
  normalizations train_transforms = [(imagenet_mean, imagenet_std)]
  /\ normalizations val_transforms = [(imagenet_mean, imagenet_std)]
  /\ List.last train_transforms ToTensor
     = Normalize [0.485; 0.456; 0.406]%Q [0.229; 0.224; 0.225]%Q
  /\ List.last val_transforms ToTensor
     = Normalize [0.485; 0.456; 0.406]%Q [0.229; 0.224; 0.225]%Q.
Proof. repeat split. Qed.

(** The training pipeline does draw from the generator: with the sample
    kernels, two generator states give two tensors for one image. *)
Example train_transforms_random :
  fst (compose train_transforms 0 (Image [10; 20; 30]%Z))
  <> fst (compose train_transforms 1 (Image [10; 20; 30]%Z)).
Proof. vm_compute. discriminate. Qed.

End NotebookFacts.

(** ** Properties of the training loop *)

Module SkorchFacts.

Import Acquire Notebook Skorch.

(** *** Batches *)

Lemma ceil_div_zero (n : nat) : (0 < n)%nat -> ceil_div 0 n = 0%nat.
Proof. intros Hn. unfold ceil_div. apply Nat.div_small. lia. Qed.

(** taking one batch off a non-empty list leaves one batch less *)
Lemma ceil_div_step (m n : nat) :
  (0 < n)%nat -> (0 < m)%nat -> ceil_div m n = S (ceil_div (m - n) n).
Proof.
  intros Hn Hm. unfold ceil_div.
  destruct (Nat.le_gt_cases n m) as [Hle|Hgt].
  - replace (m + n - 1)%nat with ((m - n + n - 1) + 1 * n)%nat by lia.
    rewrite Nat.div_add by lia. lia.
  - replace (m - n)%nat with 0%nat by lia.
    rewrite (Nat.div_small (0 + n - 1) n) by lia.
    symmetry. apply (Nat.div_unique _ _ 1 (m - 1)); lia.
Qed.

Section Batches.
Context {A : Type}.

Lemma batches_fuel_length (n : nat) :
  (0 < n)%nat ->
  forall (fuel : nat) (l : list A),
    (length l <= fuel)%nat ->
    length (batches_fuel fuel n l) = ceil_div (length l) n.
Proof.
  intros Hn.
  induction fuel as [|fuel IH]; intros l Hl.
  - destruct l; [|simpl in Hl; lia].
    symmetry. apply ceil_div_zero, Hn.
  - destruct l as [|a l].
    + symmetry. apply ceil_div_zero, Hn.
    + cbn [batches_fuel length].
      rewrite IH by (rewrite length_drop; simpl in *; lia).
      rewrite length_drop. symmetry.
      apply (ceil_div_step (length (a :: l)) n Hn). simpl. lia.
Qed.

Lemma batches_length (n : nat) (l : list A) :
  (0 < n)%nat -> length (batches n l) = ceil_div (length l) n.
Proof. intros Hn. apply batches_fuel_length; [exact Hn | lia]. Qed.

Lemma batches_fuel_concat (n : nat) :
  (0 < n)%nat ->
  forall (fuel : nat) (l : list A),
    (length l <= fuel)%nat -> concat (batches_fuel fuel n l) = l.
Proof.
  intros Hn. induction fuel as [|fuel IH]; intros l Hl.
  - destruct l; [reflexivity | simpl in Hl; lia].
  - destruct l as [|a l]; [reflexivity|].
    cbn [batches_fuel concat].
    rewrite IH by (rewrite length_drop; simpl in *; lia).
    apply take_drop.
Qed.

(** the batches cover the list, in order, each sample once *)
Lemma batches_concat (n : nat) (l : list A) :
  (0 < n)%nat -> concat (batches n l) = l.
Proof. intros Hn. apply batches_fuel_concat; [exact Hn | lia]. Qed.
End Batches.

(** [ceil_div a n] is the ceiling of [a / n] *)
Lemma ceil_div_spec (a n : nat) :
  (0 < n)%nat ->
  (a <= ceil_div a n * n)%nat /\ (ceil_div a n * n < a + n)%nat.
Proof.
  intros Hn. unfold ceil_div.
  pose proof (Nat.div_mod_eq (a + n - 1) n) as Hd.
  pose proof (Nat.mod_upper_bound (a + n - 1) n) as Hm.
  nia.
Qed.

(** *** Counting epochs in sevens *)

Lemma div_succ_step (k n : nat) :
  (0 < n)%nat -> (S k mod n = 0)%nat -> (S k / n = S (k / n))%nat.
Proof.
  intros Hn Hmod.
  pose proof (Nat.div_mod_eq (S k) n) as Hs.
  pose proof (Nat.div_mod_eq k n) as Hk.
  pose proof (Nat.mod_upper_bound k n) as Hr.
  rewrite Hmod in Hs. nia.
Qed.

Lemma div_succ_same (k n : nat) :
  (0 < n)%nat -> (S k mod n <> 0)%nat -> (S k / n = k / n)%nat.
Proof.
  intros Hn Hmod.
  pose proof (Nat.div_mod_eq (S k) n) as Hs.
  pose proof (Nat.div_mod_eq k n) as Hk.
  pose proof (Nat.mod_upper_bound k n) as Hr.
  pose proof (Nat.mod_upper_bound (S k) n) as Hr'.
  nia.
Qed.

(** *** The best score of a column *)

Lemma Qltb_lt (a b : Q) : Qltb a b = true <-> (a < b)%Q.
Proof.
  unfold Qltb. rewrite negb_true_iff. split.
  - intros Hle. apply Qnot_le_lt. intros Hba.
    apply Qle_bool_iff in Hba. congruence.
  - intros Hlt. destruct (Qle_bool b a) eqn:Hle; [|reflexivity].
    apply Qle_bool_iff in Hle. exfalso. exact (Qlt_not_le _ _ Hlt Hle).
Qed.

Lemma running_best_snoc (l : list Q) (a : Q) :
  running_best (l ++ [a])
  = if is_best (running_best l) a then Some a else running_best l.
Proof. unfold running_best. rewrite foldl_snoc. reflexivity. Qed.

(** the running best of a column is one of its entries and bounds them all *)
Lemma running_best_spec (l : list Q) :
  match running_best l with
  | None => l = []
  | Some b => In b l /\ Forall (fun x => (x <= b)%Q) l
  end.
Proof.
  induction l as [|a l IH] using rev_ind; [reflexivity|].
  rewrite running_best_snoc.
  destruct (running_best l) as [b|] eqn:Hb; simpl.
  - destruct IH as [Hin Hall].
    destruct (Qltb b a) eqn:Hlt.
    + apply Qltb_lt in Hlt. split; [apply in_or_app; right; left; reflexivity|].
      apply Forall_app. split.
      * eapply Forall_impl; [exact Hall|]. intros x Hx. simpl in Hx.
        apply Qlt_le_weak. eapply Qle_lt_trans; eassumption.
      * constructor; [apply Qle_refl | constructor].
    + split; [apply in_or_app; left; exact Hin|].
      apply Forall_app. split; [exact Hall|].
      constructor; [|constructor].
      destruct (Qlt_le_dec b a) as [Hlt'|Hle]; [|exact Hle].
      apply Qltb_lt in Hlt'. congruence.
  - subst l. split; [left; reflexivity|].
    constructor; [apply Qle_refl | constructor].
Qed.

(** an accuracy is the best so far exactly when it strictly exceeds every
    earlier one *)
Lemma is_best_running (l : list Q) (a : Q) :
  is_best (running_best l) a = true <-> Forall (fun x => (x < a)%Q) l.
Proof.
  pose proof (running_best_spec l) as Hspec.
  destruct (running_best l) as [b|]; simpl.
  - destruct Hspec as [Hin Hall]. rewrite Qltb_lt. split.
    + intros Hlt. eapply Forall_impl; [exact Hall|].
      intros x Hx. simpl in Hx. eapply Qle_lt_trans; eassumption.
    + intros Hlt. rewrite Forall_forall in Hlt. apply Hlt.
      apply list_elem_of_In. exact Hin.
  - subst l. split; [constructor | reflexivity].
Qed.

(** *** The callbacks of the notebook at the end of an epoch *)

Section Callbacks.
Context {V X G B : Type} `{Torch V X G B}.

Ltac notify_cases st :=
  unfold notify_epoch_end; cbn;
  destruct (last (history st)) as [r|]; cbn;
  [destruct (valid_acc_best r)|]; reflexivity.

Lemma notify_module (st : net_state V G B) :
  module_ (notify_epoch_end net st) = module_ st.
Proof. notify_cases st. Qed.

Lemma notify_history (st : net_state V G B) :
  history (notify_epoch_end net st) = history st.
Proof. notify_cases st. Qed.

Lemma notify_best_score (st : net_state V G B) :
  best_score (notify_epoch_end net st) = best_score st.
Proof. notify_cases st. Qed.

Lemma notify_last_epoch (st : net_state V G B) :
  last_epoch (notify_epoch_end net st) = S (last_epoch st).
Proof. notify_cases st. Qed.

Lemma notify_lr (st : net_state V G B) :
  optimizer_lr (notify_epoch_end net st)
  = if Nat.eqb (S (last_epoch st) mod 7) 0
    then (optimizer_lr st * 0.1)%Q else optimizer_lr st.
Proof. notify_cases st. Qed.

Lemma notify_saves (st : net_state V G B) (r : row) :
  last (history st) = Some r ->
  saves (notify_epoch_end net st)
  = if valid_acc_best r
    then (saves st ++ [(checkpoint_path, length (history st))])%list
    else saves st.
Proof.
  intros Hr. unfold notify_epoch_end; cbn. rewrite Hr; cbn.
  destruct (valid_acc_best r); reflexivity.
Qed.

Lemma notify_files (st : net_state V G B) (r : row) :
  last (history st) = Some r ->
  files (notify_epoch_end net st)
  = if valid_acc_best r
    then <[checkpoint_path := weights (module_ st)]> (files st)
    else files st.
Proof.
  intros Hr. unfold notify_epoch_end; cbn. rewrite Hr; cbn.
  destruct (valid_acc_best r); reflexivity.
Qed.
End Callbacks.

(** *** One epoch *)

Section Epoch.
Context {V X G B : Type} `{Torch V X G B}.

Lemma policy_kept_refl (m : gmap string (parameter V)) : policy_kept m m.
Proof. intros name. split; [reflexivity | intros p Hp _; exact Hp]. Qed.

Lemma policy_kept_trans (m1 m2 m3 : gmap string (parameter V)) :
  policy_kept m1 m2 -> policy_kept m2 m3 -> policy_kept m1 m3.
Proof.
  intros H12 H23 name.
  destruct (H12 name) as [Hf12 Hv12], (H23 name) as [Hf23 Hv23].
  split; [congruence|].
  intros p Hp Hfrozen. apply Hv23; [apply Hv12|]; assumption.
Qed.

Lemma optimizer_step_policy_kept (computed : gmap string V)
    (m : gmap string (parameter V)) :
  policy_kept m (optimizer_step computed m).
Proof.
  intros name. unfold optimizer_step. rewrite map_lookup_imap.
  destruct (m !! name) as [p|] eqn:Hm; simpl; [|split; [reflexivity|]].
  - split.
    + destruct (requires_grad p) eqn:Hg; simpl; [|congruence].
      destruct (computed !! name); simpl; congruence.
    + intros q Hq Hfrozen. injection Hq as <-. rewrite Hfrozen. reflexivity.
  - intros p Hp. discriminate.
Qed.

Lemma foldl_train_step (rate momentum : Q) (tb : list (list X)) :
  forall m o n,
    let res := foldl (train_step rate momentum) (m, o, n) tb in
    policy_kept m (fst (fst res)) /\ snd res = (n + length tb)%nat.
Proof.
  induction tb as [|b tb IH]; intros m o n; simpl.
  - split; [apply policy_kept_refl | lia].
  - destruct (sgd_step rate momentum b o (weights m)) as [o' computed].
    destruct (IH (optimizer_step computed m) o' (S n)) as [Hk Hn].
    split.
    + eapply policy_kept_trans; [apply optimizer_step_policy_kept|exact Hk].
    + rewrite Hn. lia.
Qed.

Lemma foldl_validation_step (w : gmap string V) (vb : list (list X)) :
  forall nb seen ok,
    let res := foldl (validation_step w) (nb, seen, ok) vb in
    fst (fst res) = (nb + length vb)%nat
    /\ snd (fst res) = (seen + length (concat vb))%nat.
Proof.
  induction vb as [|b vb IH]; intros nb seen ok; simpl.
  - split; lia.
  - destruct (IH (S nb) (seen + length b)%nat
                (ok + length (List.filter (predict_ok w) b))%nat)
      as [Hn Hs].
    rewrite Hn, Hs, length_app. split; lia.
Qed.

Lemma data_loader_net (g : G) (ds : list X) :
  let res := data_loader true (batch_size net) g ds in
  length (fst res) = ceil_div (length ds) 4
  /\ length (concat (fst res)) = length ds.
Proof.
  unfold data_loader. cbn [batch_size net].
  pose proof (randperm_perm g ds) as Hperm.
  destruct (randperm g ds) as [order g']. cbn [fst] in *.
  apply Permutation_length in Hperm.
  rewrite batches_length, batches_concat by lia.
  rewrite Hperm. split; reflexivity.
Qed.

Lemma train_epoch_net (tr : list X) (st : net_state V G B) :
  let res := train_epoch net tr st in
  policy_kept (module_ st) (fst (fst (fst res)))
  /\ snd (fst res) = ceil_div (length tr) 4.
Proof.
  unfold train_epoch. cbn [iterator_train__shuffle net].
  pose proof (data_loader_net (generator st) tr) as [Hlen _].
  destruct (data_loader true (batch_size net) (generator st) tr) as [tb g1].
  cbn [fst snd] in *.
  destruct (foldl_train_step (optimizer_lr st) (optimizer__momentum net) tb
              (module_ st) (optimizer_ st) 0) as [Hk Hn].
  split; [exact Hk|]. rewrite Hn, Hlen. reflexivity.
Qed.

Lemma valid_epoch_net (va : list X) (w : gmap string V) (g : G) :
  let res := valid_epoch net va w g in
  fst (fst (fst res)) = ceil_div (length va) 4
  /\ snd (fst (fst res)) = length va.
Proof.
  unfold valid_epoch. cbn [iterator_valid__shuffle net].
  pose proof (data_loader_net g va) as [Hlen Hcat].
  destruct (data_loader true (batch_size net) g va) as [vb g2].
  cbn [fst snd] in *.
  destruct (foldl_validation_step w vb 0 0 0) as [Hn Hs].
  rewrite Hn, Hs, Hlen, Hcat. split; reflexivity.
Qed.

(** an epoch of the notebook's classifier, stage by stage *)
Lemma run_epoch_net (tr va : list X) (st : net_state V G B) :
  exists m1 o1 g2 ok,
    policy_kept (module_ st) m1
    /\ run_epoch net tr va st
       = notify_epoch_end net
           (record_epoch st m1 o1 (ceil_div (length tr) 4)
              (ceil_div (length va) 4) (length va) ok g2).
Proof.
  unfold run_epoch.
  pose proof (train_epoch_net tr st) as [Hk Hn].
  destruct (train_epoch net tr st) as [[[m1 o1] n_train] g1].
  cbn [fst snd] in *.
  pose proof (valid_epoch_net va (weights m1) g1) as [Hnv Hs].
  destruct (valid_epoch net va (weights m1) g1) as [[[n_valid seen] ok] g2].
  cbn [fst snd] in *. subst.
  exists m1, o1, g2, ok. split; [exact Hk | reflexivity].
Qed.

(** what one epoch of the notebook's classifier does to the state *)
Lemma run_epoch_step (tr va : list X) (st : net_state V G B) :
  let st' := run_epoch net tr va st in
  exists r,
    history st' = (history st ++ [r])%list
    /\ epoch r = S (length (history st))
    /\ row_lr r = optimizer_lr st
    /\ train_batch_count r = ceil_div (length tr) 4
    /\ valid_batch_count r = ceil_div (length va) 4
    /\ valid_images r = length va
    /\ valid_acc_best r = is_best (best_score st) (valid_acc r)
    /\ best_score st'
       = (if valid_acc_best r then Some (valid_acc r) else best_score st)
    /\ saves st'
       = (if valid_acc_best r
          then (saves st ++ [(checkpoint_path, S (length (history st)))])%list
          else saves st)
    /\ files st'
       = (if valid_acc_best r
          then <[checkpoint_path := weights (module_ st')]> (files st)
          else files st)
    /\ last_epoch st' = S (last_epoch st)
    /\ optimizer_lr st'
       = (if Nat.eqb (S (last_epoch st) mod 7) 0
          then (optimizer_lr st * 0.1)%Q else optimizer_lr st)
    /\ policy_kept (module_ st) (module_ st').
Proof.
  intros st'. subst st'.
  destruct (run_epoch_net tr va st) as (m1 & o1 & g2 & ok & Hk & ->).
  set (acc := accuracy ok (length va)).
  set (r := {| epoch := S (length (history st));
               row_lr := optimizer_lr st;
               train_batch_count := ceil_div (length tr) 4;
               valid_batch_count := ceil_div (length va) 4;
               valid_images := length va;
               valid_acc := acc;
               valid_acc_best := is_best (best_score st) acc |}).
  set (st1 := record_epoch st m1 o1 (ceil_div (length tr) 4)
                (ceil_div (length va) 4) (length va) ok g2).
  assert (Hh : history st1 = (history st ++ [r])%list) by reflexivity.
  assert (Hlast : last (history st1) = Some r)
    by (rewrite Hh; apply last_snoc).
  exists r.
  rewrite notify_history, notify_best_score, (notify_saves st1 r Hlast),
    (notify_files st1 r Hlast), notify_last_epoch, notify_lr, notify_module.
  rewrite Hh, length_app. cbn [length].
  replace (length (history st) + 1)%nat with (S (length (history st)))
    by lia.
  repeat (split; [reflexivity|]). exact Hk.
Qed.
End Epoch.

(** *** A run *)

Section Run.
Context {V X G B : Type} `{Torch V X G B}.
Variable s : session V X G B.

Local Abbreviation after := (after_epochs net s).

Lemma after_succ (k : nat) :
  after (S k) = run_epoch net (train_ds s) (val_ds s) (after k).
Proof. reflexivity. Qed.

Lemma fit_ready :
  cuda_is_available (host s) = true ->
  fit net s = inr (after 25).
Proof. intros Hgpu. unfold fit. cbn. rewrite Hgpu. reflexivity. Qed.

Lemma fit_inr (st : net_state V G B) :
  fit net s = inr st ->
  cuda_is_available (host s) = true /\ st = after 25.
Proof.
  unfold fit. cbn. destruct (cuda_is_available (host s)); [|discriminate].
  intros Hst. injection Hst as <-. split; reflexivity.
Qed.

Lemma history_length (k : nat) : length (history (after k)) = k.
Proof.
  induction k as [|k IH]; [reflexivity|]. rewrite after_succ.
  destruct (run_epoch_step (train_ds s) (val_ds s) (after k))
    as (r & Hh & _).
  rewrite Hh, length_app, IH. simpl. lia.
Qed.

Lemma history_prefix (k n : nat) :
  (k <= n)%nat -> exists rest, history (after n) = (history (after k) ++ rest)%list.
Proof.
  induction 1 as [|n Hle [rest IH]].
  - exists []. symmetry. apply app_nil_r.
  - rewrite after_succ.
    destruct (run_epoch_step (train_ds s) (val_ds s) (after n))
      as (r & Hh & _).
    exists (rest ++ [r])%list. rewrite Hh, IH, app_assoc. reflexivity.
Qed.

(** the row at index [k] of any later history is the one epoch [k + 1]
    appended *)
Lemma history_lookup (n k : nat) (r : row) :
  history (after n) !! k = Some r ->
  (k < n)%nat /\ history (after (S k)) = (history (after k) ++ [r])%list.
Proof.
  intros Hr.
  assert (Hk : (k < n)%nat).
  { apply lookup_lt_Some in Hr. rewrite history_length in Hr. exact Hr. }
  split; [exact Hk|].
  destruct (history_prefix (S k) n) as [rest Hrest]; [lia|].
  rewrite Hrest in Hr.
  rewrite lookup_app_l in Hr by (rewrite history_length; lia).
  rewrite after_succ in *.
  destruct (run_epoch_step (train_ds s) (val_ds s) (after k))
    as (r0 & Hh & _).
  rewrite Hh in *.
  rewrite lookup_app_r in Hr by (rewrite history_length; lia).
  rewrite history_length, Nat.sub_diag in Hr. simpl in Hr.
  injection Hr as <-. reflexivity.
Qed.

(** what the row of an epoch holds, in terms of the state the epoch
    started from *)
Lemma row_facts (n k : nat) (r : row) :
  history (after n) !! k = Some r ->
  (k < n)%nat
  /\ epoch r = S k
  /\ row_lr r = optimizer_lr (after k)
  /\ train_batch_count r = ceil_div (length (train_ds s)) 4
  /\ valid_batch_count r = ceil_div (length (val_ds s)) 4
  /\ valid_images r = length (val_ds s)
  /\ valid_acc_best r = is_best (best_score (after k)) (valid_acc r).
Proof.
  intros Hr. apply history_lookup in Hr as [Hk Hsnoc].
  split; [exact Hk|].
  rewrite after_succ in Hsnoc.
  destruct (run_epoch_step (train_ds s) (val_ds s) (after k))
    as (r0 & Hh & He & Hlr & Htb & Hvb & Hvi & Hbest & _).
  rewrite Hh in Hsnoc. apply app_inj_tail in Hsnoc as [_ ->].
  rewrite history_length in He.
  repeat split; assumption.
Qed.

Lemma history_rows (n k : nat) :
  (k < n)%nat -> exists r, history (after n) !! k = Some r.
Proof.
  intros Hk. apply lookup_lt_is_Some. rewrite history_length. exact Hk.
Qed.

(** **** The schedule *)

Lemma last_epoch_after (k : nat) : last_epoch (after k) = k.
Proof.
  induction k as [|k IH]; [reflexivity|]. rewrite after_succ.
  destruct (run_epoch_step (train_ds s) (val_ds s) (after k))
    as (r & _ & _ & _ & _ & _ & _ & _ & _ & _ & _ & Hle & _).
  rewrite Hle, IH. reflexivity.
Qed.

Lemma optimizer_lr_after (k : nat) :
  (optimizer_lr (after k) == 0.001 * 0.1 ^ Z.of_nat (k / 7))%Q.
Proof.
  induction k as [|k IH]; [reflexivity|]. rewrite after_succ.
  destruct (run_epoch_step (train_ds s) (val_ds s) (after k))
    as (r & _ & _ & _ & _ & _ & _ & _ & _ & _ & _ & _ & Hlr & _).
  rewrite Hlr, last_epoch_after.
  destruct (Nat.eqb (S k mod 7) 0) eqn:Hmod.
  - apply Nat.eqb_eq in Hmod.
    rewrite (div_succ_step k 7) by (exact Hmod || lia).
    rewrite Nat2Z.inj_succ, <- Z.add_1_r.
    rewrite Qpower_plus by discriminate.
    rewrite IH. ring.
  - apply Nat.eqb_neq in Hmod.
    rewrite (div_succ_same k 7) by (exact Hmod || lia).
    exact IH.
Qed.

(** **** The checkpoint *)

Lemma best_score_after (k : nat) :
  best_score (after k) = running_best (accs s k).
Proof.
  unfold accs. induction k as [|k IH]; [reflexivity|]. rewrite after_succ.
  destruct (run_epoch_step (train_ds s) (val_ds s) (after k))
    as (r & Hh & _ & _ & _ & _ & _ & Hbest & Hscore & _).
  rewrite Hscore, Hh, fmap_app.
  change (valid_acc <$> [r]) with [valid_acc r].
  rewrite running_best_snoc, <- IH, <- Hbest. reflexivity.
Qed.

(** a row is marked as the best exactly when its accuracy strictly
    exceeds the accuracy of every earlier row *)
Lemma row_best (n k : nat) (r : row) :
  history (after n) !! k = Some r ->
  valid_acc_best r = true
  <-> (forall j r', (j < k)%nat -> history (after n) !! j = Some r' ->
                    (valid_acc r' < valid_acc r)%Q).
Proof.
  intros Hr. pose proof (row_facts n k r Hr) as (Hk & _ & _ & _ & _ & _ & Hb).
  rewrite Hb, best_score_after, is_best_running. unfold accs.
  destruct (history_prefix k n) as [rest Hrest]; [lia|].
  rewrite Forall_fmap, Forall_lookup. split.
  - intros Hall j r' Hj Hr'. apply (Hall j r').
    rewrite Hrest in Hr'.
    rewrite lookup_app_l in Hr' by (rewrite history_length; exact Hj).
    exact Hr'.
  - intros Hall j r' Hr'. apply (Hall j r').
    + apply lookup_lt_Some in Hr'. rewrite history_length in Hr'. exact Hr'.
    + rewrite Hrest. apply lookup_app_l_Some. exact Hr'.
Qed.

(** the file is written at the end of exactly the epochs whose row is
    marked, and no other file is *)
Lemma saves_after (k : nat) (path : string) (e : nat) :
  In (path, e) (saves (after k))
  <-> path = checkpoint_path
      /\ exists r, (1 <= e)%nat /\ history (after k) !! (e - 1)%nat = Some r
                   /\ valid_acc_best r = true.
Proof.
  induction k as [|k IH].
  - simpl. split; [contradiction|]. intros (_ & r & _ & Hr & _).
    discriminate.
  - rewrite after_succ.
    destruct (run_epoch_step (train_ds s) (val_ds s) (after k))
      as (r & Hh & _ & _ & _ & _ & _ & _ & _ & Hsaves & _).
    rewrite Hh, history_length in *.
    assert (Hold : forall i r', history (after k) !! i = Some r' ->
              (history (after k) ++ [r])%list !! i = Some r')
      by (intros i r' Hi; apply lookup_app_l_Some; exact Hi).
    assert (Hnew : (history (after k) ++ [r])%list !! k = Some r).
    { rewrite lookup_app_r by (rewrite history_length; lia).
      rewrite history_length, Nat.sub_diag. reflexivity. }
    assert (Hin :
      In (path, e) (saves (after k)) \/
        (valid_acc_best r = true /\ (path, e) = (checkpoint_path, S k))
      <-> path = checkpoint_path
          /\ exists r', (1 <= e)%nat
               /\ (history (after k) ++ [r])%list !! (e - 1)%nat = Some r'
               /\ valid_acc_best r' = true).
    { rewrite IH. split.
      - intros [(Hp & r' & He & Hr' & Hb) | (Hb & Heq)].
        + split; [exact Hp|]. exists r'. auto.
        + injection Heq as -> ->. split; [reflexivity|].
          exists r. simpl. rewrite Nat.sub_0_r. auto with arith.
      - intros (Hp & r' & He & Hr' & Hb).
        destruct (Nat.eq_dec (e - 1) k) as [Hek|Hek].
        + right. rewrite Hek, Hnew in Hr'. injection Hr' as <-.
          split; [exact Hb|]. rewrite Hp. f_equal. lia.
        + left. split; [exact Hp|]. exists r'.
          split; [exact He|]. split; [|exact Hb].
          assert (Hlt : (e - 1 < k)%nat).
          { apply lookup_lt_Some in Hr'.
            rewrite length_app, history_length in Hr'. simpl in Hr'. lia. }
          rewrite lookup_app_l in Hr' by (rewrite history_length; exact Hlt).
          exact Hr'. }
    rewrite <- Hin, Hsaves.
    destruct (valid_acc_best r).
    + rewrite in_app_iff. simpl. split.
      * intros [Hold'|[Heq|[]]]; [left; exact Hold'|right].
        split; [reflexivity | symmetry; exact Heq].
      * intros [Hold'|[_ Heq]]; [left; exact Hold'|right; left].
        symmetry; exact Heq.
    + split; [intros Hold'; left; exact Hold'|].
      intros [Hold'|[Hb _]]; [exact Hold' | discriminate].
Qed.

(** the file on disk changes only at the end of an epoch whose row is
    marked, and then holds the model of that moment *)
Lemma files_after (k : nat) (r : row) :
  history (after (S k)) !! k = Some r ->
  files (after (S k))
  = if valid_acc_best r
    then <[checkpoint_path := weights (module_ (after (S k)))]> (files (after k))
    else files (after k).
Proof.
  intros Hr. apply history_lookup in Hr as [_ Hsnoc].
  rewrite after_succ in *.
  destruct (run_epoch_step (train_ds s) (val_ds s) (after k))
    as (r0 & Hh & _ & _ & _ & _ & _ & _ & _ & _ & Hfiles & _).
  rewrite Hh in Hsnoc. apply app_inj_tail in Hsnoc as [_ ->].
  exact Hfiles.
Qed.

Lemma files_kept (k k' : nat) (path : string) :
  (k <= k')%nat ->
  is_Some (files (after k) !! path) -> is_Some (files (after k') !! path).
Proof.
  induction 1 as [|n Hle IH]; [trivial|]. intros Hk. specialize (IH Hk).
  destruct (history_rows (S n) n) as [r Hr]; [lia|].
  rewrite (files_after n r Hr).
  destruct (valid_acc_best r); [|exact IH].
  destruct (decide (checkpoint_path = path)) as [<-|Hne].
  - rewrite lookup_insert_eq. eauto.
  - rewrite lookup_insert_ne by exact Hne. exact IH.
Qed.

(** **** The freezing policy *)

Lemma module_after (k : nat) :
  policy_kept (module_ (after 0)) (module_ (after k)).
Proof.
  induction k as [|k IH]; [apply policy_kept_refl|]. rewrite after_succ.
  destruct (run_epoch_step (train_ds s) (val_ds s) (after k))
    as (r & _ & _ & _ & _ & _ & _ & _ & _ & _ & _ & _ & _ & Hk).
  eapply policy_kept_trans; eassumption.
Qed.

(** **** The model a run starts from *)

Lemma pretrained_trainable (name : string) (p : parameter V) :
  pretrained s !! name = Some p -> requires_grad p = true.
Proof.
  unfold pretrained, PretrainedModel. intros Hp.
  apply elem_of_list_to_map_2, list_elem_of_In, in_map_iff in Hp.
  destruct Hp as (kv & Heq & _). injection Heq as _ <-. reflexivity.
Qed.

Lemma module_begin (name : string) :
  module_ (after 0) !! name
  = (fun p => if negb (startswith "model.fc" name)
              then Param (data p) false else p) <$> (pretrained s !! name).
Proof.
  change (module_ (after 0))
    with (freeze (fun x => negb (startswith "model.fc" x)) (pretrained s)).
  unfold freeze. rewrite map_lookup_imap.
  destruct (pretrained s !! name); reflexivity.
Qed.

Lemma module_after_lookup (k : nat) (name : string) :
  match pretrained s !! name with
  | None => module_ (after k) !! name = None
  | Some q =>
      exists p, module_ (after k) !! name = Some p
        /\ requires_grad p = startswith "model.fc" name
        /\ (startswith "model.fc" name = false -> data p = data q)
  end.
Proof.
  destruct (module_after k name) as [Hflag Hval].
  rewrite (module_begin name) in Hflag, Hval.
  pose proof (pretrained_trainable name) as Htr.
  destruct (pretrained s !! name) as [q|]; simpl in Hflag, Hval.
  - specialize (Htr q eq_refl).
    destruct (startswith "model.fc" name) eqn:Hfc; simpl in *.
    + destruct (module_ (after k) !! name) as [p|]; [|discriminate].
      exists p. split; [reflexivity|]. split; [|discriminate].
      simpl in Hflag. congruence.
    + rewrite (Hval _ eq_refl eq_refl). eexists. split; [reflexivity|].
      split; reflexivity.
  - destruct (module_ (after k) !! name); [discriminate | reflexivity].
Qed.
End Run.

Lemma history_counts {V X G B : Type} `{Torch V X G B}
    (s : session V X G B) (n : nat) :
  Forall (fun r => train_batch_count r = ceil_div (length (train_ds s)) 4
                   /\ valid_batch_count r = ceil_div (length (val_ds s)) 4
                   /\ valid_images r = length (val_ds s))
    (history (after_epochs net s n)).
Proof.
  apply Forall_lookup. intros k r Hr.
  apply row_facts in Hr as (_ & _ & _ & Htb & Hvb & Hvi & _). auto.
Qed.

Lemma sum_list_constant {A} (f : A -> nat) (c : nat) (l : list A) :
  Forall (fun x => f x = c) l -> sum_list (f <$> l) = (c * length l)%nat.
Proof.
  induction 1 as [|x l Hx _ IH]; [simpl; lia|].
  change (sum_list (f <$> x :: l)) with (f x + sum_list (f <$> l))%nat.
  rewrite Hx, IH. simpl. lia.
Qed.

(** *** The claims on the training run *)

Section RunClaims.
Context {V X G B : Type} `{Torch V X G B}.
Variable s : session V X G B.

(** C1. After training completes, the trainable parameters are exactly
    those whose name starts with [model.fc], and every parameter whose
    name does not start with [model.fc] holds the value it had in the
    pretrained model; the run neither adds nor drops a parameter. *)
Theorem freezer_policy :
  cuda_is_available (host s) = true ->
  exists st,
    fit net s = inr st
    /\ (forall name p, module_ st !! name = Some p ->
           requires_grad p = startswith "model.fc" name)
    /\ (forall name, startswith "model.fc" name = false ->
           data <$> (module_ st !! name)
           = data <$> (PretrainedModel (resnet18 s) (fc_weight s)
                         (fc_bias s) !! name))
    /\ (forall name,
           is_Some (module_ st !! name)
           <-> is_Some (PretrainedModel (resnet18 s) (fc_weight s)
                          (fc_bias s) !! name)).
Proof.
  intros Hgpu. exists (after_epochs net s 25).
  split; [apply fit_ready, Hgpu|].
  fold (pretrained s).
  split; [|split]; intros name.
  - intros p Hp. pose proof (module_after_lookup s 25 name) as Hl.
    destruct (pretrained s !! name) as [q|].
    + destruct Hl as (p' & Hp' & Hflag & _). congruence.
    + congruence.
  - intros Hfc. pose proof (module_after_lookup s 25 name) as Hl.
    destruct (pretrained s !! name) as [q|].
    + destruct Hl as (p' & -> & _ & Hdata). simpl. rewrite Hdata; auto.
    + rewrite Hl. reflexivity.
  - pose proof (module_after_lookup s 25 name) as Hl.
    destruct (pretrained s !! name) as [q|].
    + destruct Hl as (p' & -> & _). split; eauto.
    + rewrite Hl. split; intros [? ?]; discriminate.
Qed.

(** C2. During a run the file [best_model.pt] is written at the end of
    an epoch if and only if the validation accuracy of that epoch
    strictly exceeds the validation accuracy of every earlier epoch of
    the run; at the end of any other epoch the saved files stay as they
    are, and after a write the file holds the model of that moment; once
    there, the file stays there. *)
Theorem checkpoint_on_strict_improvement (st : net_state V G B) :
  fit net s = inr st ->
  (forall e,
     In ("best_model.pt", e) (saves st)
     <-> exists r, (1 <= e)%nat /\ history st !! (e - 1)%nat = Some r
           /\ forall j r', (j < e - 1)%nat -> history st !! j = Some r' ->
                 (valid_acc r' < valid_acc r)%Q)
  /\ (forall k, (k < 25)%nat ->
        (In ("best_model.pt", S k) (saves st) ->
         files (after_epochs net s (S k))
         = <["best_model.pt" := weights (module_ (after_epochs net s (S k)))]>
             (files (after_epochs net s k)))
        /\ (~ In ("best_model.pt", S k) (saves st) ->
            files (after_epochs net s (S k)) = files (after_epochs net s k)))
  /\ (forall k k', (k <= k')%nat ->
        is_Some (files (after_epochs net s k) !! "best_model.pt") ->
        is_Some (files (after_epochs net s k') !! "best_model.pt")).
Proof.
  intros Hfit. apply fit_inr in Hfit as [_ ->].
  assert (Hsaved : forall e,
    In ("best_model.pt", e) (saves (after_epochs net s 25))
    <-> exists r, (1 <= e)%nat
          /\ history (after_epochs net s 25) !! (e - 1)%nat = Some r
          /\ forall j r', (j < e - 1)%nat ->
                history (after_epochs net s 25) !! j = Some r' ->
                (valid_acc r' < valid_acc r)%Q).
  { intros e. rewrite (saves_after s 25 "best_model.pt" e). split.
    - intros (_ & r & He & Hr & Hb). exists r.
      split; [exact He|]. split; [exact Hr|].
      apply (row_best s 25 (e - 1) r Hr). exact Hb.
    - intros (r & He & Hr & Hall). split; [reflexivity|]. exists r.
      split; [exact He|]. split; [exact Hr|].
      apply (row_best s 25 (e - 1) r Hr). exact Hall. }
  split; [exact Hsaved|]. split.
  - intros k Hk.
    destruct (history_rows s 25 k Hk) as [r Hr].
    pose proof (history_lookup s 25 k r Hr) as [_ Hsnoc].
    assert (Hrk : history (after_epochs net s (S k)) !! k = Some r).
    { rewrite Hsnoc, lookup_app_r by (rewrite history_length; lia).
      rewrite history_length, Nat.sub_diag. reflexivity. }
    rewrite (files_after s k r Hrk).
    assert (Hmark : In ("best_model.pt", S k) (saves (after_epochs net s 25))
                    <-> valid_acc_best r = true).
    { rewrite (saves_after s 25 "best_model.pt" (S k)). simpl.
      rewrite Nat.sub_0_r. split.
      - intros (_ & r' & _ & Hr' & Hb). congruence.
      - intros Hb. split; [reflexivity|]. exists r.
        split; [lia|]. split; [exact Hr | exact Hb]. }
    destruct (valid_acc_best r).
    + split; [reflexivity|]. intros Hout. exfalso.
      apply Hout, Hmark. reflexivity.
    + split; [|reflexivity]. intros Hin. apply Hmark in Hin. discriminate.
  - intros k k' Hle. apply files_kept. exact Hle.
Qed.

(** C4. The learning rate follows step decay from 0.001 by the factor
    0.1 every 7 epochs: for every epoch [e] of the run, the rate of the
    optimizer when the steps of epoch [e] start, which is the rate every
    step of that epoch runs at and the one its row shows, equals
    0.001 * 0.1 ^ floor ((e - 1) / 7). *)
Theorem step_decay (st : net_state V G B) (e : nat) :
  fit net s = inr st ->
  (1 <= e <= 25)%nat ->
  exists r,
    history st !! (e - 1)%nat = Some r
    /\ epoch r = e
    /\ row_lr r = optimizer_lr (after_epochs net s (e - 1))
    /\ (row_lr r == 0.001 * 0.1 ^ ((Z.of_nat e - 1) / 7))%Q.
Proof.
  intros Hfit He. apply fit_inr in Hfit as [_ ->].
  destruct (history_rows s 25 (e - 1)) as [r Hr]; [lia|].
  exists r. split; [exact Hr|].
  apply row_facts in Hr as (_ & Hep & Hlr & _).
  split; [lia|]. split; [exact Hlr|].
  rewrite Hlr, optimizer_lr_after.
  replace ((Z.of_nat e - 1) / 7)%Z with (Z.of_nat ((e - 1) / 7)).
  - reflexivity.
  - rewrite Nat2Z.inj_div, Nat2Z.inj_sub by lia. reflexivity.
Qed.

(** C5. With [N] training and [M] validation images, batches of 4 and
    25 epochs, a run takes ceil (N / 4) optimizer steps in each of its
    25 epochs, ceil (N / 4) * 25 in all, and makes one validation pass
    per epoch, 25 in all, each over all [M] validation images. *)
Theorem fit_step_counts :
  cuda_is_available (host s) = true ->
  exists st,
    fit net s = inr st
    /\ length (history st) = 25%nat
    /\ sum_list (train_batch_count <$> history st)
       = (ceil_div (length (train_ds s)) 4 * 25)%nat
    /\ Forall (fun r => train_batch_count r
                        = ceil_div (length (train_ds s)) 4
                        /\ valid_images r = length (val_ds s)
                        /\ valid_batch_count r
                           = ceil_div (length (val_ds s)) 4)
         (history st).
Proof.
  intros Hgpu. exists (after_epochs net s 25).
  split; [apply fit_ready, Hgpu|].
  pose proof (history_counts s 25) as Hrows.
  split; [apply history_length|]. split.
  - rewrite (sum_list_constant train_batch_count
               (ceil_div (length (train_ds s)) 4)).
    + rewrite history_length. reflexivity.
    + eapply Forall_impl; [exact Hrows|]. intros r (Htb & _). exact Htb.
  - eapply Forall_impl; [exact Hrows|].
    intros r (Htb & Hvb & Hvi). auto.
Qed.

(** C8. With [device='cuda'] on a machine without an available GPU,
    [fit] fails with the device-unavailable error before any epoch is
    run; it does not return a trained network. *)
Theorem cuda_unavailable_is_fatal :
  cuda_is_available (host s) = false ->
  device net = cuda
  /\ fit net s = inl (DeviceUnavailable cuda)
  /\ forall st, fit net s <> inr st.
Proof.
  intros Hgpu. split; [reflexivity|].
  assert (Hfit : fit net s = inl (DeviceUnavailable cuda)).
  { unfold fit. cbn. rewrite Hgpu. reflexivity. }
  split; [exact Hfit|]. intros st Hst. congruence.
Qed.
End RunClaims.

(** *** The claims on a sample run *)

Import Sample.

(** The freezing policy on the sample session with a GPU. *)
Lemma freezer_policy_witness :
  cuda_is_available (host (toy_session true)) = true
  /\ exists st,
       fit net (toy_session true) = inr st
       /\ forall name p, module_ st !! name = Some p ->
            requires_grad p = startswith "model.fc" name.
Proof.
  split; [reflexivity|].
  destruct (freezer_policy (toy_session true) eq_refl)
    as (st & Hfit & Hflag & _).
  exists st. split; [exact Hfit | exact Hflag].
Defined.

(** The checkpoint rule on the sample session with a GPU. *)
Lemma checkpoint_on_strict_improvement_witness :
  fit net (toy_session true) = inr (after_epochs net (toy_session true) 25)
  /\ forall e,
       In ("best_model.pt", e) (saves (after_epochs net (toy_session true) 25))
       <-> exists r,
             (1 <= e)%nat
             /\ history (after_epochs net (toy_session true) 25) !! (e - 1)%nat
                = Some r
             /\ forall j r', (j < e - 1)%nat ->
                   history (after_epochs net (toy_session true) 25) !! j
                   = Some r' ->
                   (valid_acc r' < valid_acc r)%Q.
Proof.
  assert (Hfit : fit net (toy_session true)
                 = inr (after_epochs net (toy_session true) 25))
    by reflexivity.
  split; [exact Hfit|].
  exact (proj1 (checkpoint_on_strict_improvement (toy_session true) _ Hfit)).
Defined.

(** The schedule on the sample session with a GPU, at epoch 8. *)
Lemma step_decay_witness :
  fit net (toy_session true) = inr (after_epochs net (toy_session true) 25)
  /\ (1 <= 8 <= 25)%nat
  /\ exists r,
       history (after_epochs net (toy_session true) 25) !! 7%nat = Some r
       /\ epoch r = 8%nat
       /\ (row_lr r == 0.0001)%Q.
Proof.
  assert (Hfit : fit net (toy_session true)
                 = inr (after_epochs net (toy_session true) 25))
    by reflexivity.
  assert (He : (1 <= 8 <= 25)%nat) by lia.
  split; [exact Hfit|]. split; [exact He|].
  destruct (step_decay (toy_session true) _ 8 Hfit He)
    as (r & Hr & Hep & _ & Hlr).
  exists r. split; [exact Hr|]. split; [exact Hep|].
  rewrite Hlr. reflexivity.
Defined.

(** The step counts on the sample session with a GPU: 9 training
    samples, 5 validation samples. *)
Lemma fit_step_counts_witness :
  cuda_is_available (host (toy_session true)) = true
  /\ exists st,
       fit net (toy_session true) = inr st
       /\ length (history st) = 25%nat
       /\ sum_list (train_batch_count <$> history st) = 75%nat.
Proof.
  split; [reflexivity|].
  destruct (fit_step_counts (toy_session true) eq_refl)
    as (st & Hfit & Hlen & Hsum & _).
  exists st. split; [exact Hfit|]. split; [exact Hlen | exact Hsum].
Defined.

(** The device error on the sample session without a GPU. *)
Lemma cuda_unavailable_is_fatal_witness :
  cuda_is_available (host (toy_session false)) = false
  /\ fit net (toy_session false) = inl (DeviceUnavailable cuda).
Proof.
  split; [reflexivity|].
  exact (proj1 (proj2 (cuda_unavailable_is_fatal (toy_session false) eq_refl))).
Defined.

(** *** The model against the table the notebook shows *)

(** the rule for the best epoch marks the printed column of accuracies
    exactly where the printed table has its [+] *)
Example printed_marks : best_marks None printed_valid_acc = printed_cp.
Proof. vm_compute. reflexivity. Qed.

(** the sample run, computed: the epochs the file was written at, the
    final model, the rates of the rows *)
Example toy_run_saves :
  saves (after_epochs net (toy_session true) 25)
  = [("best_model.pt", 1%nat); ("best_model.pt", 3%nat);
     ("best_model.pt", 14%nat)].
Proof. vm_compute. reflexivity. Qed.

Example toy_run_module :
  map_to_list (module_ (after_epochs net (toy_session true) 25))
  = [("model.conv1.weight", Param 10%Z false);
     ("model.fc.weight", Param 75%Z true);
     ("model.fc.bias", Param 75%Z true);
     ("model.layer1.0.bn1.bias", Param 20%Z false)].
Proof. vm_compute. reflexivity. Qed.

Example toy_run_rates :
  List.map (fun r => Qred (row_lr r))
    (history (after_epochs net (toy_session true) 25))
  = (repeat 0.001 7 ++ repeat 0.0001 7 ++ repeat 0.00001 7
     ++ repeat 0.000001 4)%Q%list.
Proof. vm_compute. reflexivity. Qed.

End SkorchFacts.

(** ** Further properties of the dataset acquisition *)

Module AcquireMore.

Import Acquire Cells AcquireFacts.

Lemma finished_not_downloading (dataset_dir : string) :
  finished dataset_dir <> downloading.
Proof.
  unfold finished, downloading, done_message. intros Heq.
  inversion Heq.
Qed.

Lemma finished_not_extracting (dataset_dir : string) :
  finished dataset_dir <> extracting.
Proof.
  unfold finished, extracting, done_message. intros Heq.
  inversion Heq.
Qed.

Section Traces.
Context {FS Bytes : Type} `{FileSystem FS Bytes}.

(** every trace a call can leave, with its outcome *)
Lemma run_shapes (net : network Bytes) (dataset_dir : string) (fs : FS) :
  let res := run net dataset_dir fs in
  let zip := data_zip dataset_dir in
  let t := w_trace (fst res) in
  (t = [finished dataset_dir] /\ snd res = inr tt
   /\ fs_exists fs (data_path dataset_dir) = true)
  \/ (fs_exists fs (data_path dataset_dir) = false
      /\ fs_exists fs zip = true
      /\ ((t = [extracting; ExtractAll zip dataset_dir; finished dataset_dir]
           /\ snd res = inr tt)
          \/ (t = [extracting; ExtractAll zip dataset_dir]
              /\ exists e, snd res = inl e)))
  \/ (fs_exists fs (data_path dataset_dir) = false
      /\ fs_exists fs zip = false
      /\ ((t = [downloading; UrlOpen url 15]
           /\ exists e, snd res = inl e /\ net url 15%Z = inl e)
          \/ (exists payload, net url 15%Z = inr payload)
             /\ ((t = [downloading; UrlOpen url 15; WriteFile zip]
                  /\ exists e, snd res = inl e)
                 \/ (t = [downloading; UrlOpen url 15; WriteFile zip;
                          extracting; ExtractAll zip dataset_dir]
                     /\ exists e, snd res = inl e)
                 \/ (t = [downloading; UrlOpen url 15; WriteFile zip;
                          extracting; ExtractAll zip dataset_dir;
                          finished dataset_dir]
                     /\ snd res = inr tt)))).
Proof.
  intros res zip t. subst res zip t. rewrite run_unfold.
  destruct (fs_exists fs (data_path dataset_dir)) eqn:Hp; [left; auto|].
  right.
  destruct (fs_exists fs (data_zip dataset_dir)) eqn:Hz.
  - left. split; [reflexivity|]. split; [reflexivity|].
    unfold extract_then_finish.
    destruct (fs_extractall _ _ fs) as [fs' [e|]]; simpl; eauto.
  - right. split; [reflexivity|]. split; [reflexivity|].
    unfold download_then_finish.
    destruct (net url 15%Z) as [e|payload]; simpl; [left; eauto|].
    right. split; [eauto|].
    destruct (fs_write _ payload fs) as [fs1 [e|]]; simpl; [left; eauto|].
    right. unfold extract_then_finish.
    destruct (fs_extractall _ _ fs1) as [fs2 [e|]]; simpl; eauto.
Qed.

(** X1. A call returns normally exactly when the last thing it printed is
    the final message; a call that raises never prints that message. *)
Theorem success_iff_final_message (net : network Bytes)
    (dataset_dir : string) (fs : FS) :
  let res := run net dataset_dir fs in
  (snd res = inr tt
   <-> last (w_trace (fst res)) = Some (finished dataset_dir))
  /\ (In (finished dataset_dir) (w_trace (fst res)) <-> snd res = inr tt).
Proof.
  intros res.
  pose proof (finished_not_downloading dataset_dir) as Hd.
  pose proof (finished_not_extracting dataset_dir) as Hx.
  destruct (run_shapes net dataset_dir fs)
    as [(Ht & Hr & _)
       |[(_ & _ & [(Ht & Hr)|(Ht & e & Hr)])
        |(_ & _ & [(Ht & e & Hr & _)
                  |(_ & [(Ht & e & Hr)|[(Ht & e & Hr)|(Ht & Hr)]])])]];
    fold res in Ht, Hr; rewrite Ht, Hr; simpl; split; split; intros Hyp;
    try reflexivity; try discriminate; try tauto;
    repeat (destruct Hyp as [Hyp|Hyp]; try discriminate;
            try (symmetry in Hyp; contradiction));
    try contradiction.
Qed.

(** X2. Whatever happens, a call writes at most one file, the archive at
    [data_zip], and extracts at most one archive, that same file into the
    dataset directory.  It writes only after a request that succeeded,
    and only when neither the archive nor the directory was there; it
    extracts only when the directory was not there. *)
Theorem effects_at_fixed_paths (net : network Bytes) (dataset_dir : string)
    (fs : FS) :
  let t := w_trace (fst (run net dataset_dir fs)) in
  let zip := data_zip dataset_dir in
  (writes t = [] \/ writes t = [WriteFile zip])
  /\ (extractions t = [] \/ extractions t = [ExtractAll zip dataset_dir])
  /\ (writes t <> [] ->
      requests t = [UrlOpen url 15]
      /\ fs_exists fs zip = false
      /\ fs_exists fs (data_path dataset_dir) = false
      /\ exists payload, net url 15%Z = inr payload)
  /\ (extractions t <> [] -> fs_exists fs (data_path dataset_dir) = false).
Proof.
  intros t zip. subst t zip.
  destruct (run_shapes net dataset_dir fs)
    as [(Ht & _ & Hp)
       |[(Hp & Hz & [(Ht & _)|(Ht & _)])
        |(Hp & Hz & [(Ht & _)
                    |(Hpay & [(Ht & _)|[(Ht & _)|(Ht & _)]])])]];
    rewrite Ht; simpl;
    (split; [auto|]); (split; [auto|]);
    split; intros Hne; try contradiction; auto.
Qed.
End Traces.

(** *** On the reference file system *)

Lemma not_exists_lookup (d : gmap string node) (p : string) :
  fs_exists d p = false -> d !! p = None.
Proof.
  simpl. intros Hp. apply bool_decide_eq_false_1 in Hp.
  destruct (d !! p); [exfalso; apply Hp; eauto | reflexivity].
Qed.

Lemma data_zip_not_data_path (dataset_dir : string) :
  data_zip dataset_dir <> data_path dataset_dir.
Proof.
  unfold data_zip, data_path, os_path_join. simpl startswith. cbv iota.
  destruct (String.eqb dataset_dir "" || endswith_sep dataset_dir);
    intros Heq; repeat apply (inj (String.append _)) in Heq; discriminate.
Qed.



(** X4. A download that is no archive sticks: the first call fetches it,
    writes it and fails at the extraction, leaving the file on disk; the
    next call, finding the file, makes no request and fails at the
    extraction again. *)
Theorem bad_download_sticks (net net' : network blob) (dataset_dir : string)
    (d : gmap string node) (octets : string) :
  fs_exists d (data_path dataset_dir) = false ->
  fs_exists d (data_zip dataset_dir) = false ->
  net url 15%Z = inr (Raw octets) ->
  String.eqb (dirname (data_zip dataset_dir)) ""
  || is_dir d (dirname (data_zip dataset_dir)) = true ->
  let zip := data_zip dataset_dir in
  let d1 := <[zip := File (Raw octets)]> d in
  run net dataset_dir d
  = (World d1 [downloading; UrlOpen url 15; WriteFile zip;
               extracting; ExtractAll zip dataset_dir],
     inl (BadZipFile "File is not a zip file"))
  /\ run net' dataset_dir d1
     = (World d1 [extracting; ExtractAll zip dataset_dir],
        inl (BadZipFile "File is not a zip file")).
Proof.
  intros Hp Hz Hnet Hparent zip d1. subst zip d1.
  assert (Hnodir : is_dir d (data_zip dataset_dir) = false)
    by (unfold is_dir; rewrite (not_exists_lookup _ _ Hz); reflexivity).
  split.
  - rewrite run_unfold, Hp, Hz. unfold download_then_finish. rewrite Hnet.
    simpl fs_write. unfold disk_write. rewrite Hnodir, Hparent.
    unfold extract_then_finish. simpl fs_extractall. unfold disk_extractall.
    rewrite lookup_insert_eq. reflexivity.
  - rewrite run_unfold.
    assert (Hp1 : fs_exists (<[data_zip dataset_dir := File (Raw octets)]> d)
                    (data_path dataset_dir) = false).
    { simpl. rewrite lookup_insert_ne by apply data_zip_not_data_path.
      exact Hp. }
    assert (Hz1 : fs_exists (<[data_zip dataset_dir := File (Raw octets)]> d)
                    (data_zip dataset_dir) = true).
    { simpl. rewrite lookup_insert_eq. apply bool_decide_eq_true_2. eauto. }
    rewrite Hp1, Hz1.
    unfold extract_then_finish. simpl fs_extractall. unfold disk_extractall.
    rewrite lookup_insert_eq. reflexivity.
Qed.

Lemma bad_download_sticks_witness :
  snd (run net_garbage default_dataset_dir disk_fresh)
  = inl (BadZipFile "File is not a zip file")
  /\ requests
       (w_trace
          (fst (run net_up default_dataset_dir
                  (w_fs (fst (run net_garbage default_dataset_dir
                                disk_fresh))))))
     = []
  /\ snd (run net_up default_dataset_dir
            (w_fs (fst (run net_garbage default_dataset_dir disk_fresh))))
     = inl (BadZipFile "File is not a zip file").
Proof.
  destruct (bad_download_sticks net_garbage net_up default_dataset_dir
              disk_fresh "<html>" eq_refl eq_refl eq_refl eq_refl)
    as [H1 H2].
  rewrite H1. simpl fst. simpl snd. simpl w_fs. rewrite H2.
  repeat split.
Defined.

(** The second run on the reference file system, from a disk holding only
    the target directory and the network serving the sample archive. *)
Lemma disk_second_run_witness :
  fs_exists disk_after_run (data_path default_dataset_dir) = true
  /\ run net_down default_dataset_dir disk_after_run
     = (World disk_after_run [finished default_dataset_dir], inr tt).
Proof.
  assert (Hdisk : forall b,
            disk_fresh !! data_zip default_dataset_dir = Some (File b) ->
            well_laid b = true)
    by (intros b Hb; vm_compute in Hb; discriminate).
  assert (Hnet : forall b, net_up url 15%Z = inr b -> well_laid b = true)
    by (intros b Hb; injection Hb as <-; reflexivity).
  assert (Hrun : run net_up default_dataset_dir disk_fresh
                 = (World disk_after_run
                      [downloading; UrlOpen url 15;
                       WriteFile (data_zip default_dataset_dir);
                       extracting;
                       ExtractAll (data_zip default_dataset_dir)
                         default_dataset_dir;
                       finished default_dataset_dir], inr tt))
    by (vm_compute; reflexivity).
  exact (disk_second_run net_up net_down default_dataset_dir disk_fresh _
           Hdisk Hnet Hrun).
Defined.

(** *** The directories an extraction creates *)









End AcquireMore.

(** ** Properties of the remaining cells *)

Module CellsFacts.

Import Acquire Notebook Cells.

(** *** The installation cell *)

(** X7. Off Colab the installation cell starts no process and raises
    nothing.  On Colab exit statuses are ignored: when the four programs
    can be started, all four commands are run, in order, and the cell
    ends normally whatever their exit statuses. *)
Theorem setup_ignores_exit_status (sh : shell) :
  colab_setup false sh [] = ([], inr tt)
  /\ ((forall argv, In argv install_commands -> sh argv <> NoSuchProgram) ->
      colab_setup true sh [] = (install_commands, inr tt)).
Proof.
  split; [reflexivity|]. intros Hfound.
  assert (H1 := Hfound pip_install). assert (H2 := Hfound mkdir_datasets).
  assert (H3 := Hfound wget_archive). assert (H4 := Hfound unzip_archive).
  unfold colab_setup, try_except_ImportError, andthen, import_module,
    subprocess_run.
  destruct (sh pip_install); [|exfalso; apply H1; simpl; auto].
  destruct (sh mkdir_datasets); [|exfalso; apply H2; simpl; auto].
  destruct (sh wget_archive); [|exfalso; apply H3; simpl; auto].
  destruct (sh unzip_archive); [|exfalso; apply H4; simpl; auto].
  reflexivity.
Qed.

Lemma setup_ignores_exit_status_witness :
  colab_setup true sh_all_fail [] = (install_commands, inr tt).
Proof.
  apply (proj2 (setup_ignores_exit_status sh_all_fail)).
  intros argv _. discriminate.
Defined.

(** X8. On Colab a program that cannot be started is not covered by the
    [except ImportError]: the cell raises at the first such command,
    after having run the commands before it, and runs none after it. *)
Theorem setup_stops_at_missing_program (sh : shell) (i : nat)
    (argv : list string) :
  install_commands !! i = Some argv ->
  sh argv = NoSuchProgram ->
  (forall j argv', (j < i)%nat -> install_commands !! j = Some argv' ->
                   sh argv' <> NoSuchProgram) ->
  colab_setup true sh []
  = (take i install_commands, inl (FileNotFoundError (List.hd "" argv))).
Proof.
  intros Hi Hmiss Hbefore.
  assert (H0 : (0 < i)%nat -> sh pip_install <> NoSuchProgram)
    by (intros Hlt; apply (Hbefore 0%nat); [exact Hlt | reflexivity]).
  assert (H1 : (1 < i)%nat -> sh mkdir_datasets <> NoSuchProgram)
    by (intros Hlt; apply (Hbefore 1%nat); [exact Hlt | reflexivity]).
  assert (H2 : (2 < i)%nat -> sh wget_archive <> NoSuchProgram)
    by (intros Hlt; apply (Hbefore 2%nat); [exact Hlt | reflexivity]).
  unfold colab_setup, try_except_ImportError, andthen, import_module,
    subprocess_run.
  destruct i as [|[|[|[|i]]]]; simpl in Hi; try discriminate;
    injection Hi as <-.
  - rewrite Hmiss. reflexivity.
  - destruct (sh pip_install); [|exfalso; apply H0; [lia|reflexivity]].
    rewrite Hmiss. reflexivity.
  - destruct (sh pip_install); [|exfalso; apply H0; [lia|reflexivity]].
    destruct (sh mkdir_datasets); [|exfalso; apply H1; [lia|reflexivity]].
    rewrite Hmiss. reflexivity.
  - destruct (sh pip_install); [|exfalso; apply H0; [lia|reflexivity]].
    destruct (sh mkdir_datasets); [|exfalso; apply H1; [lia|reflexivity]].
    destruct (sh wget_archive); [|exfalso; apply H2; [lia|reflexivity]].
    rewrite Hmiss. reflexivity.
Qed.

Lemma setup_stops_at_missing_program_witness :
  colab_setup true sh_no_wget []
  = ([pip_install; mkdir_datasets], inl (FileNotFoundError "wget")).
Proof.
  apply (setup_stops_at_missing_program sh_no_wget 2 wget_archive);
    [reflexivity | reflexivity |].
  intros j argv' Hj Hlook.
  destruct j as [|[|j]]; [| |lia]; simpl in Hlook; injection Hlook as <-;
    discriminate.
Defined.

(** *** The assembled model and the freezer's predicate *)

Section Assembly.
Context {V : Type}.

Lemma PretrainedModel_unfold (resnet18 : list (string * V)) (w b : V) :
  PretrainedModel resnet18 w b
  = list_to_map
      (List.map named
         (List.filter kept resnet18 ++ [("fc.weight", w); ("fc.bias", b)])).
Proof. reflexivity. Qed.

Lemma model_prefix_inj (k k' : string) :
  "model." +:+ k = "model." +:+ k' -> k = k'.
Proof. intros Heq. apply (inj (String.append _)) in Heq. exact Heq. Qed.

(** a name of the new layer is looked up in the new layer *)
Lemma lookup_past_backbone (resnet18 tail : list (string * V)) (k : string) :
  startswith "fc." k = true ->
  (list_to_map (List.map named (List.filter kept resnet18 ++ tail))
     : gmap string (parameter V)) !! ("model." +:+ k)
  = (list_to_map (List.map named tail) : gmap string (parameter V))
      !! ("model." +:+ k).
Proof.
  intros Hk. induction resnet18 as [|[k0 v0] r IH]; [reflexivity|].
  simpl List.filter. destruct (kept (k0, v0)) eqn:Hkept; [|exact IH].
  simpl. rewrite lookup_insert_ne; [exact IH|].
  intros Heq. apply model_prefix_inj in Heq. subst k0.
  unfold kept in Hkept. simpl in Hkept. rewrite Hk in Hkept. discriminate.
Qed.

(** X9. Assembling the model replaces the head: whatever the pretrained
    network holds under [fc], the parameters [model.fc.weight] and
    [model.fc.bias] of the assembled model are the ones of the new
    layer, and they are trainable. *)
Theorem new_head_replaces_pretrained (resnet18 : list (string * V))
    (w b : V) :
  PretrainedModel resnet18 w b !! "model.fc.weight" = Some (Param w true)
  /\ PretrainedModel resnet18 w b !! "model.fc.bias" = Some (Param b true).
Proof.
  rewrite PretrainedModel_unfold. split.
  - rewrite (lookup_past_backbone resnet18 _ "fc.weight" eq_refl).
    reflexivity.
  - rewrite (lookup_past_backbone resnet18 _ "fc.bias" eq_refl).
    reflexivity.
Qed.

(** X10. Assembling the model keeps the backbone: with distinct names in
    the pretrained network, every pretrained parameter whose name does
    not start with [fc.] is in the assembled model under [model.] and
    its name, with its pretrained value, and is trainable. *)
Theorem backbone_is_kept (resnet18 : list (string * V)) (w b : V)
    (k : string) (v : V) :
  NoDup (fst <$> resnet18) ->
  (k, v) ∈ resnet18 ->
  startswith "fc." k = false ->
  PretrainedModel resnet18 w b !! ("model." +:+ k) = Some (Param v true).
Proof.
  rewrite PretrainedModel_unfold. intros Hnodup Hin Hk.
  induction resnet18 as [|[k0 v0] r IH]; [inversion Hin|].
  rewrite fmap_cons in Hnodup. apply NoDup_cons in Hnodup as [Hfresh Hnodup].
  simpl List.filter.
  apply elem_of_cons in Hin as [Heq|Hin].
  - injection Heq as <- <-. unfold kept at 1. simpl fst. rewrite Hk.
    simpl. rewrite lookup_insert_eq. reflexivity.
  - assert (Hne : k0 <> k).
    { intros ->. apply Hfresh. apply (list_elem_of_fmap_2 fst) in Hin.
      exact Hin. }
    destruct (kept (k0, v0)); [|exact (IH Hnodup Hin)].
    simpl. rewrite lookup_insert_ne; [exact (IH Hnodup Hin)|].
    intros Heq. apply model_prefix_inj in Heq. contradiction.
Qed.

(** X11. Nothing else is in the assembled model: each of its parameters
    is trainable, is named [model.] and a name [k] of the network, and is
    either a pretrained parameter kept from the backbone or one of the
    two of the new layer.  On such a parameter the freezer's predicate
    holds exactly when [k] does not start with [fc]; so it never selects
    the new layer. *)
Theorem assembled_model_entries (resnet18 : list (string * V)) (w b : V)
    (name : string) (p : parameter V) :
  PretrainedModel resnet18 w b !! name = Some p ->
  exists k v,
    name = "model." +:+ k
    /\ p = Param v true
    /\ freezer_patterns name = negb (startswith "fc" k)
    /\ (((k, v) ∈ resnet18 /\ startswith "fc." k = false)
        \/ (k, v) = ("fc.weight", w)
        \/ (k, v) = ("fc.bias", b)).
Proof.
  rewrite PretrainedModel_unfold. intros Hp.
  apply elem_of_list_to_map_2, list_elem_of_In, in_map_iff in Hp.
  destruct Hp as ([k v] & Heq & Hin). injection Heq as <- <-.
  exists k, v. split; [reflexivity|]. split; [reflexivity|].
  split; [reflexivity|].
  apply in_app_or in Hin as [Hin|Hin].
  - left. apply filter_In in Hin as [Hin Hkept]. split.
    + apply list_elem_of_In. exact Hin.
    + unfold kept in Hkept. apply negb_true_iff in Hkept. exact Hkept.
  - right. simpl in Hin. destruct Hin as [<-|[<-|[]]]; auto.
Qed.
End Assembly.

Lemma backbone_is_kept_witness :
  PretrainedModel toy_resnet18 0%Z 0%Z !! "model.conv1.weight"
  = Some (Param 10%Z true).
Proof.
  apply (backbone_is_kept toy_resnet18 0%Z 0%Z "conv1.weight" 10%Z).
  - apply (bool_decide_unpack _). vm_compute. exact I.
  - apply (bool_decide_unpack _). vm_compute. exact I.
  - reflexivity.
Defined.

Lemma assembled_model_entries_witness :
  exists k v,
    "model.fc.bias" = "model." +:+ k
    /\ Param 0%Z true = Param v true
    /\ freezer_patterns "model.fc.bias" = negb (startswith "fc" k).
Proof.
  destruct (assembled_model_entries toy_resnet18 0%Z 0%Z "model.fc.bias"
              (Param 0%Z true) eq_refl)
    as (k & v & Hname & Hp & Hpat & _).
  exists k, v. auto.
Defined.


End CellsFacts.
